(** * knackpy: the [App] class of [knackpy/app.py]

    A shallow embedding of the identifier resolver, the timezone resolver,
    the record cache ([App.records]), the download assembler
    ([App._assemble_downloads]), the download executor
    ([App._download_files]) and [App.download], followed by the properties
    the specification states about them.

    Python values are modelled by small inductive types, dictionaries by
    [gmap], exceptions by a [result] type, and the calls that leave the
    process (the Knack API, HTTP, the file system, the debugger) by the
    nodes of a finite interaction tree [prog]: a node carries the arguments
    of the call and a continuation waiting for the answer of the outside
    world. *)

From Stdlib Require Import ZArith Ascii String List Lia.
From stdpp Require Import base strings gmap list pretty.

Open Scope string_scope.
Open Scope list_scope.
Open Scope Z_scope.

(** ** Python values *)

(** The JSON scalars found in Knack payloads: [None], [bool], [int], [str]. *)
Inductive scalar : Type :=
| SNone
| SBool (b : bool)
| SInt (n : Z)
| SStr (s : string).

#[global] Instance scalar_eq_dec : EqDecision scalar.
Proof. solve_decision. Defined.

(** The attachment payload stored under ["<field>_raw"]: a [dict] from
    attribute names (["filename"], ["url"], ["size"], ...) to scalars. *)
Abbreviation file_dict := (gmap string scalar).

(** The value of one field of a raw record: a scalar or a payload dict. *)
Inductive value : Type :=
| VScalar (a : scalar)
| VDict (d : file_dict).

(** A raw record ([record.raw]) and the batch returned by [api.get]. *)
Abbreviation raw_record := (gmap string value).
Abbreviation batch := (list raw_record).

(** Python exceptions, by class. [ExternalError] stands for whatever a
    collaborator raises ([api.get], [requests.get], [open], [os.makedirs],
    the debugger, [utils.humanize_bytes]). *)
Inductive response : Type :=
  Response { status_code : Z; content : string; resp_url : string }.

Inductive exn : Type :=
| ValueError (msg : string)
| IndexError (msg : string)
| TypeError (msg : string)
| KeyError (key : string)
| HTTPError (res : response)
| ExternalError (tag : string).

Inductive result (A : Type) : Type :=
| Ok (a : A)
| Raise (e : exn).
Arguments Ok {A} a.
Arguments Raise {A} e.

(** Truthiness ([bool(x)], the test behind [not x], [x or y], [if x]). *)
Definition truthy_str (s : string) : bool :=
  match s with EmptyString => false | String _ _ => true end.

Definition truthy_opt (v : option string) : bool :=
  match v with None => false | Some s => truthy_str s end.

Definition truthy_int (v : option Z) : bool :=
  match v with None => false | Some n => negb (n =? 0) end.

Definition truthy_scalar (a : scalar) : bool :=
  match a with
  | SNone => false
  | SBool b => b
  | SInt n => negb (n =? 0)
  | SStr s => truthy_str s
  end.

Definition truthy_value (v : value) : bool :=
  match v with
  | VScalar a => truthy_scalar a
  | VDict d => negb (bool_decide (d = ∅))
  end.

Definition truthy_list {A} (l : option (list A)) : bool :=
  match l with Some (_ :: _) => true | _ => false end.

(** [a or b] on optional strings. *)
Definition py_or (a b : option string) : option string :=
  if truthy_opt a then a else b.

(** [str(x)], as used by f-string interpolation. *)
Definition str_scalar (a : scalar) : string :=
  match a with
  | SNone => "None"
  | SBool true => "True"
  | SBool false => "False"
  | SInt n => pretty n
  | SStr s => s
  end.

Definition str_opt (v : option string) : string :=
  match v with None => "None" | Some s => s end.

(** [str.lower()], on the ASCII letters. *)
Definition lower_ascii (c : ascii) : ascii :=
  let n := nat_of_ascii c in
  if ((65 <=? n) && (n <=? 90))%nat then ascii_of_nat (n + 32) else c.

Fixpoint lower (s : string) : string :=
  match s with
  | EmptyString => EmptyString
  | String c r => String (lower_ascii c) (lower r)
  end.

(** [os.path.join(a, b)] of [posixpath], two arguments. *)
Definition starts_with_sep (s : string) : bool :=
  match s with String "/" _ => true | _ => false end.

Fixpoint ends_with_sep (s : string) : bool :=
  match s with
  | EmptyString => false
  | String c EmptyString => bool_decide (c = "/"%char)
  | String _ r => ends_with_sep r
  end.

Definition posix_join (a b : string) : string :=
  if starts_with_sep b then b
  else if negb (truthy_str a) || ends_with_sep a then a +:+ b
  else a +:+ "/" +:+ b.

Definition path_join (a : string) (b : scalar) : result string :=
  match b with
  | SStr b => Ok (posix_join a b)
  | _ => Raise (TypeError "expected str, bytes or os.PathLike object")
  end.

(** ** Containers and field definitions *)

Record Container : Type := mkContainer {
  obj : option string;
  view : option string;
  scene : option string;
  name : string
}.

#[global] Instance Container_eq_dec : EqDecision Container.
Proof. solve_decision. Defined.

Record FieldDef : Type := mkFieldDef {
  fd_key : string;
  fd_name : string;
  fd_obj : string
}.

#[global] Instance FieldDef_eq_dec : EqDecision FieldDef.
Proof. solve_decision. Defined.

(** The filters of a query: passed through to the transport untouched. *)
Inductive Filters : Type :=
| FilterRules (rules : list (string * string * string))
| FilterMatch (how : string) (rules : list (string * string * string)).

(** The state of an [App] instance. [data] is the record cache
    ([self.data]); its keys are what [container.obj or container.view]
    evaluates to. *)
Record App : Type := mkApp {
  app_id : string;
  api_key : option string;
  timeout : option Z;
  max_attempts : option Z;
  containers : list Container;
  field_defs : list FieldDef;
  data : gmap (option string) batch
}.

Definition set_data (self : App) (d : gmap (option string) batch) : App :=
  {| app_id := app_id self; api_key := api_key self; timeout := timeout self;
     max_attempts := max_attempts self; containers := containers self;
     field_defs := field_defs self; data := d |}.

(** ** [App._find_container] *)

(** [identifier in [container.obj, container.view, container.name]] *)
Definition container_matches (identifier : option string) (c : Container) : bool :=
  bool_decide (identifier = obj c)
  || bool_decide (identifier = view c)
  || bool_decide (identifier = Some (name c)).

Definition AmbiguousIdentifier (identifier : option string) : exn :=
  ValueError ("Multiple containers use name " +:+ str_opt identifier
              +:+ ". Try using a view or object key.").

Definition UnknownContainer (identifier : option string) : exn :=
  IndexError ("Unknown container specified: " +:+ str_opt identifier
              +:+ ". Inspect App.containers for available containers.").

Definition _find_container (self : App) (identifier : option string)
  : result Container :=
  let matches := List.filter (container_matches identifier) (containers self) in
  if (1 <? length matches)%nat then Raise (AmbiguousIdentifier identifier)
  else match matches with
       | c :: _ => Ok c
       | [] => Raise (UnknownContainer identifier)
       end.

(** ** [App._get_timezone] *)

(** One row of the [TIMEZONES] table of [knackpy.models]. *)
Record TimezoneEntry : Type := mkTimezoneEntry {
  common_name : string;
  iana_name : string
}.

(** The text of the [ValueError] raised when both lookups fail. *)
Definition unknown_timezone_message : string :=
"
                Unknown timezone supplied. `tzinfo` should formatted as a
                timezone string compliant to the IANA timezone database. See:
                https://en.wikipedia.org/wiki/List_of_tz_database_time_zones
            ".

Definition UnknownTimezone : exn := ValueError unknown_timezone_message.

(** [needle in haystack] on strings. *)
Fixpoint contains (needle haystack : string) : bool :=
  String.prefix needle haystack
  || match haystack with
     | EmptyString => false
     | String _ r => contains needle r
     end.

Section Timezone.
(** [pytz] and the [TIMEZONES] table are not part of the sources: the
    handle type, [pytz.timezone] ([None] when it raises
    [UnknownTimeZoneError]) and the table are parameters. *)
Variable tzhandle : Type.
Variable pytz_timezone : string -> option tzhandle.
Variable TIMEZONES : list TimezoneEntry.

Definition timezone_matches (tzinfo : string) : list string :=
  List.map iana_name
    (List.filter
       (fun tz => bool_decide (lower (common_name tz) = lower tzinfo))
       TIMEZONES).

Definition _get_timezone (tzinfo : string) : result tzhandle :=
  match pytz_timezone tzinfo with
  | Some h => Ok h
  | None =>
      match timezone_matches tzinfo with
      | m :: _ =>
          match pytz_timezone m with
          | Some h => Ok h
          | None => Raise UnknownTimezone
          end
      | [] => Raise UnknownTimezone
      end
  end.
End Timezone.

(** ** Calls to the outside world *)

Record request_kwargs : Type := mkKwargs {
  kw_record_limit : option Z;
  kw_max_attempts : option Z;
  kw_timeout : option Z
}.

(** The arguments of one [api.get] call. *)
Record api_request : Type := mkRequest {
  rq_app_id : string;
  rq_api_key : option string;
  rq_obj : option string;
  rq_scene : option string;
  rq_view : option string;
  rq_filters : option Filters;
  rq_kwargs : request_kwargs
}.

(** A program is a finite tree: it returns, or it calls the outside world
    and goes on with the answer. One constructor per call:
    [api.get(...)], [requests.get(url, allow_redirects=True)],
    [open(filename, "wb")] followed by [write(content)],
    [os.path.exists(p)], [os.makedirs(p)] and [breakpoint()]. *)
Inductive prog (R : Type) : Type :=
| Ret (r : R)
| ApiGet (rq : api_request) (k : result batch -> prog R)
| HttpGet (url : scalar) (k : result response -> prog R)
| OpenWrite (filename : scalar) (body : string) (k : result unit -> prog R)
| PathExists (p : string) (k : bool -> prog R)
| MakeDirs (p : string) (k : result unit -> prog R)
| Breakpoint (k : result unit -> prog R).
Arguments Ret {R} r.
Arguments ApiGet {R} rq k.
Arguments HttpGet {R} url k.
Arguments OpenWrite {R} filename body k.
Arguments PathExists {R} p k.
Arguments MakeDirs {R} p k.
Arguments Breakpoint {R} k.

Fixpoint bind {A B : Type} (p : prog A) (f : A -> prog B) : prog B :=
  match p with
  | Ret a => f a
  | ApiGet rq k => ApiGet rq (fun x => bind (k x) f)
  | HttpGet url k => HttpGet url (fun x => bind (k x) f)
  | OpenWrite fn body k => OpenWrite fn body (fun x => bind (k x) f)
  | PathExists p k => PathExists p (fun x => bind (k x) f)
  | MakeDirs p k => MakeDirs p (fun x => bind (k x) f)
  | Breakpoint k => Breakpoint (fun x => bind (k x) f)
  end.

(** What an observer of one run sees: each call with the answer it got. *)
Inductive obs : Type :=
| OApiGet (rq : api_request) (a : result batch)
| OHttpGet (url : scalar) (a : result response)
| OOpenWrite (filename : scalar) (body : string) (a : result unit)
| OPathExists (p : string) (a : bool)
| OMakeDirs (p : string) (a : result unit)
| OBreakpoint (a : result unit).

(** [runs p tr r]: against some outside world, [p] makes the calls of [tr],
    gets the answers of [tr], and returns [r]. *)
Inductive runs {R : Type} : prog R -> list obs -> R -> Prop :=
| runs_Ret r : runs (Ret r) [] r
| runs_ApiGet rq k a tr r :
    runs (k a) tr r -> runs (ApiGet rq k) (OApiGet rq a :: tr) r
| runs_HttpGet url k a tr r :
    runs (k a) tr r -> runs (HttpGet url k) (OHttpGet url a :: tr) r
| runs_OpenWrite fn body k a tr r :
    runs (k a) tr r -> runs (OpenWrite fn body k) (OOpenWrite fn body a :: tr) r
| runs_PathExists p k a tr r :
    runs (k a) tr r -> runs (PathExists p k) (OPathExists p a :: tr) r
| runs_MakeDirs p k a tr r :
    runs (k a) tr r -> runs (MakeDirs p k) (OMakeDirs p a :: tr) r
| runs_Breakpoint k a tr r :
    runs (k a) tr r -> runs (Breakpoint k) (OBreakpoint a :: tr) r.

(** The transport calls of a trace, and the calls answered by a debugger. *)
Definition api_calls (tr : list obs) : list api_request :=
  omap (fun o => match o with OApiGet rq _ => Some rq | _ => None end) tr.

Definition is_breakpoint (o : obs) : bool :=
  match o with OBreakpoint _ => true | _ => false end.

(** ** [App.records]: the record cache *)

Definition keep_truthy (v : option Z) : option Z :=
  if truthy_int v then v else None.

Definition _build_request_kwargs (record_limit max_attempts timeout : option Z)
  : request_kwargs :=
  {| kw_record_limit := keep_truthy record_limit;
     kw_max_attempts := keep_truthy max_attempts;
     kw_timeout := keep_truthy timeout |}.

Definition MissingIdentifier : exn :=
  TypeError "Missing 1 required argument: identifier".

(** The generator returned by [records]: the [records.Records] object built
    from [container_key] and the cached batch. *)
Record Records : Type := mkRecords {
  container_key : option string;
  records_data : batch
}.

(** Modelled from the spec: [records.Records(...).records()], of
    [knackpy/records.py], which is not among the sources. The materializer
    consumes the raw record batch and yields one record per raw record, in
    batch order; the [raw] attribute of a record is that raw record, the
    unmodified field-keyed payload of the upstream service, so a payload
    dict reached through it is the dict held by the batch. *)
Definition records_raw (g : Records) : list raw_record := records_data g.

(** The first lines of [records]: the identifier that is looked up. *)
Definition effective_identifier (self : App) (identifier : option string)
  : result (option string) :=
  if truthy_opt identifier then Ok identifier
  else match map_to_list (data self) with
       | [(k, _)] => Ok k
       | _ => Raise MissingIdentifier
       end.

Definition records_request (self : App) (container : Container)
    (record_limit : option Z) (filters : option Filters) : api_request :=
  {| rq_app_id := app_id self; rq_api_key := api_key self;
     rq_obj := obj container; rq_scene := scene container;
     rq_view := view container; rq_filters := filters;
     rq_kwargs := _build_request_kwargs record_limit (max_attempts self)
                    (timeout self) |}.

(** The body of [if not self.data.get(container_key) or refresh:] *)
Definition fetch_records (self : App) (container : Container)
    (key : option string) (record_limit : option Z) (filters : option Filters)
  : prog (App * result Records) :=
  ApiGet (records_request self container record_limit filters)
    (fun a =>
       match a with
       | Raise e => Ret (self, Raise e)
       | Ok b =>
           Ret (set_data self (<[key := b]> (data self)), Ok (mkRecords key b))
       end).

Definition records (self : App) (identifier : option string) (refresh : bool)
    (record_limit : option Z) (filters : option Filters)
  : prog (App * result Records) :=
  match effective_identifier self identifier with
  | Raise e => Ret (self, Raise e)
  | Ok identifier =>
      match _find_container self identifier with
      | Raise e => Ret (self, Raise e)
      | Ok container =>
          let key := py_or (obj container) (view container) in
          match data self !! key with
          | Some (r :: b) =>
              if refresh
              then fetch_records self container key record_limit filters
              else Ret (self, Ok (mkRecords key (r :: b)))
          | _ => fetch_records self container key record_limit filters
          end
      end
  end.

(** ** [App._assemble_downloads]: the download assembler *)

(** [record.raw.get(k)] *)
Definition raw_get (raw : raw_record) (k : string) : value :=
  default (VScalar SNone) (raw !! k).

(** [file_dict["filename"]], on whatever [raw.get] returned. *)
Definition subscript_filename (v : value) : result (file_dict * scalar) :=
  match v with
  | VDict d =>
      match d !! "filename" with
      | Some f => Ok (d, f)
      | None => Raise (KeyError "filename")
      end
  | VScalar (SStr _) => Raise (TypeError "string indices must be integers")
  | VScalar _ => Raise (TypeError "object is not subscriptable")
  end.

Section Assembler.
(** [str(d)] of a payload dict, which an f-string prints when a label key
    names a field holding a dict. *)
Variable repr_dict : file_dict -> string.

Definition str_value (v : value) : string :=
  match v with
  | VScalar a => str_scalar a
  | VDict d => repr_dict d
  end.

(** One turn of the label loop:
    [filename = f"{record.raw.get(field)}_{filename}"] *)
Definition prepend_label (raw : raw_record) (filename : scalar)
    (field : string) : scalar :=
  SStr (str_value (raw_get raw field) +:+ "_" +:+ str_scalar filename).

(** [for field in reversed(label_keys): ...] *)
Definition prepend_labels (raw : raw_record) (label_keys : list string)
    (filename : scalar) : scalar :=
  fold_left (prepend_label raw) (rev label_keys) filename.

(** The name after [if label_keys: for field in reversed(label_keys): ...] *)
Definition composed_name (label_keys : option (list string))
    (raw : raw_record) (filename : scalar) : scalar :=
  if truthy_list label_keys
  then prepend_labels raw (default [] label_keys) filename
  else filename.

(** The body of the loop over the records: [None] when the record is
    skipped, otherwise the payload dict after
    [file_dict["filename"] = os.path.join(out_dir, filename)]. *)
Definition assemble_record (field_key_raw : string)
    (label_keys : option (list string)) (out_dir : string)
    (raw : raw_record) : result (option file_dict) :=
  let file_dict := raw_get raw field_key_raw in
  if negb (truthy_value file_dict) then Ok None
  else
    match subscript_filename file_dict with
    | Raise e => Raise e
    | Ok (d, filename) =>
        let filename := composed_name label_keys raw filename in
        match path_join out_dir filename with
        | Raise e => Raise e
        | Ok path => Ok (Some (<["filename" := SStr path]> d))
        end
    end.

(** The loop. The payload dict is the one held by the raw record, so the
    assignment to [file_dict["filename"]] shows in the iterated batch:
    the first component is that batch after the loop (also when the loop
    is left by an exception), the second the [downloads] list. *)
Fixpoint assemble_loop (field_key_raw : string)
    (label_keys : option (list string)) (out_dir : string)
    (recs : list raw_record) : list raw_record * result (list file_dict) :=
  match recs with
  | [] => ([], Ok [])
  | raw :: rest =>
      match assemble_record field_key_raw label_keys out_dir raw with
      | Raise e => (raw :: rest, Raise e)
      | Ok None =>
          let '(rest', r) :=
            assemble_loop field_key_raw label_keys out_dir rest in
          (raw :: rest', r)
      | Ok (Some d) =>
          let '(rest', r) :=
            assemble_loop field_key_raw label_keys out_dir rest in
          (<[field_key_raw := VDict d]> raw :: rest',
           match r with
           | Ok downloads => Ok (d :: downloads)
           | Raise e => Raise e
           end)
      end
  end.

(** The batch iterated is the list stored in [self.data] under the
    generator's key: the loop's writes are writes to that cache entry. *)
Definition _assemble_downloads (self : App) (identifier : option string)
    (field_key : string) (label_keys : option (list string))
    (out_dir : string) : prog (App * result (list file_dict)) :=
  let field_key_raw := field_key +:+ "_raw" in
  bind (records self identifier false None None)
    (fun '(self, r) =>
       match r with
       | Raise e => Ret (self, Raise e)
       | Ok g =>
           let '(batch', r) :=
             assemble_loop field_key_raw label_keys out_dir (records_raw g) in
           let self :=
             set_data self (<[container_key g := batch']> (data self)) in
           match r with
           | Raise e => Ret (self, Raise e)
           | Ok downloads =>
               Breakpoint
                 (fun a =>
                    match a with
                    | Raise e => Ret (self, Raise e)
                    | Ok _ => Ret (self, Ok downloads)
                    end)
           end
       end).
End Assembler.

(** ** [App._download_files]: the download executor *)

(** [d[k]] on a payload dict. *)
Definition subscript (d : file_dict) (k : string) : result scalar :=
  match d !! k with
  | Some v => Ok v
  | None => Raise (KeyError k)
  end.

(** [res.raise_for_status()] of [requests]: client and server errors. *)
Definition is_error_status (res : response) : bool :=
  (400 <=? status_code res) && (status_code res <? 600).

Definition raise_for_status (res : response) : result unit :=
  if is_error_status res then Raise (HTTPError res) else Ok tt.

Section Executor.
(** [utils.humanize_bytes], of [knackpy/utils.py], is not among the
    sources: a parameter, which may raise. *)
Variable humanize_bytes : scalar -> result string.

(** What one turn of the loop evaluates before the transfer: the file
    name, the humanized size, and the URL printed by [logging.debug]. *)
Definition descriptor_fields (file_info : file_dict)
  : result (scalar * scalar) :=
  match subscript file_info "filename" with
  | Raise e => Raise e
  | Ok filename =>
      match subscript file_info "size" with
      | Raise e => Raise e
      | Ok size =>
          match humanize_bytes size with
          | Raise e => Raise e
          | Ok _ =>
              match subscript file_info "url" with
              | Raise e => Raise e
              | Ok url => Ok (filename, url)
              end
          end
      end
  end.

Fixpoint download_loop (downloads : list file_dict) (count : nat)
  : prog (result nat) :=
  match downloads with
  | [] => Ret (Ok count)
  | file_info :: rest =>
      match descriptor_fields file_info with
      | Raise e => Ret (Raise e)
      | Ok (filename, url) =>
          HttpGet url
            (fun a =>
               match a with
               | Raise e => Ret (Raise e)
               | Ok res =>
                   match raise_for_status res with
                   | Raise e => Ret (Raise e)
                   | Ok _ =>
                       OpenWrite filename (content res)
                         (fun w =>
                            match w with
                            | Raise e => Ret (Raise e)
                            | Ok _ => download_loop rest (S count)
                            end)
                   end
               end)
      end
  end.

Definition _download_files (downloads : list file_dict) : prog (result nat) :=
  download_loop downloads 0%nat.
End Executor.

(** ** [App._find_field_def] and [App.download] *)

(** [identifier.lower() in [field_def.name.lower(), field_def.key]
     and field_def.obj == obj] *)
Definition field_def_matches (identifier : string) (obj : option string)
    (fd : FieldDef) : bool :=
  (bool_decide (lower identifier = lower (fd_name fd))
   || bool_decide (lower identifier = fd_key fd))
  && bool_decide (Some (fd_obj fd) = obj).

Definition _find_field_def (self : App) (identifier : string)
    (obj : option string) : list FieldDef :=
  List.filter (field_def_matches identifier obj) (field_defs self).

Definition UnknownField (field : string) : exn :=
  ValueError ("Field not found: '" +:+ field +:+ "'").

Section Download.
Variable repr_dict : file_dict -> string.
Variable humanize_bytes : scalar -> result string.

(** [download] after the output directory is there. *)
Definition download_body (self : App) (identifier : option string)
    (field : string) (out_dir : string) (label_keys : option (list string))
  : prog (App * result nat) :=
  match _find_container self identifier with
  | Raise e => Ret (self, Raise e)
  | Ok container =>
      match _find_field_def self field identifier with
      | [] => Ret (self, Raise (UnknownField field))
      | fd :: _ =>
          bind (_assemble_downloads repr_dict self (obj container)
                  (fd_key fd) label_keys out_dir)
            (fun '(self, r) =>
               match r with
               | Raise e => Ret (self, Raise e)
               | Ok downloads =>
                   bind (_download_files humanize_bytes downloads)
                     (fun r => Ret (self, r))
               end)
      end
  end.

Definition download (self : App) (identifier : option string)
    (field : string) (out_dir : string) (label_keys : option (list string))
  : prog (App * result nat) :=
  PathExists out_dir
    (fun ex =>
       if ex then download_body self identifier field out_dir label_keys
       else
         MakeDirs out_dir
           (fun a =>
              match a with
              | Raise e => Ret (self, Raise e)
              | Ok _ =>
                  download_body self identifier field out_dir label_keys
              end)).
End Download.

(** ** The specification's wording, for comparison with the code *)

(** An identifier string names a container when it equals the container's
    object key, view key or name. *)
Definition names (s : string) (c : Container) : Prop :=
  obj c = Some s ∨ view c = Some s ∨ name c = s.

#[global] Instance names_dec s c : Decision (names s c).
Proof. unfold names. apply _. Defined.

(** The containers of the registry that an identifier string names. *)
Definition named (self : App) (s : string) : list Container :=
  List.filter (fun c => bool_decide (names s c)) (containers self).

(** The first row of the table whose common name is the input, letter case
    apart. *)
Definition first_common_name (TIMEZONES : list TimezoneEntry) (tzinfo : string)
  : option TimezoneEntry :=
  List.find (fun tz => bool_decide (lower (common_name tz) = lower tzinfo))
    TIMEZONES.

(** The file name the specification describes: the label values in the
    order of [label_keys], each followed by an underscore, then the
    upstream file name. *)
Definition labelled_name (repr_dict : file_dict -> string) (raw : raw_record)
    (label_keys : list string) (filename : scalar) : string :=
  fold_right
    (fun field acc => str_value repr_dict (raw_get raw field) +:+ "_" +:+ acc)
    (str_scalar filename) label_keys.

(** ** Sample data, used by the examples below *)

Module Sample.
Definition repr_dict (d : file_dict) : string := "{...}".

Definition humanize_bytes (a : scalar) : result string :=
  match a with
  | SInt n => Ok (pretty n +:+ " bytes")
  | _ => Raise (TypeError "unsupported operand")
  end.

Definition customers : Container :=
  mkContainer (Some "object_1") None None "Customers".

Definition orders : Container :=
  mkContainer (Some "object_2") None None "Orders".

Definition attachment : FieldDef := mkFieldDef "field_17" "Attachment" "object_1".

Definition doc : file_dict :=
  {[ "filename" := SStr "doc.pdf";
     "url" := SStr "https://api.knack.com/v1/download/asset/1/doc.pdf";
     "size" := SInt 305741 ]}.

(** A record with an attachment and the two label fields of the
    specification's example. *)
Definition record_ab : raw_record :=
  {[ "field_17_raw" := VDict doc;
     "field_1" := VScalar (SStr "A");
     "field_2" := VScalar (SStr "B") ]}.

Definition app (cache : gmap (option string) batch) : App :=
  mkApp "5d79512148c4af00106d1507" (Some "key") None None
    [customers; orders] [attachment] cache.

(** The payload and the record after one assembly with the label key
    [field_1] into [_downloads], and after a second one. *)
Definition doc1 : file_dict :=
  <["filename" := SStr "_downloads/A_doc.pdf"]> doc.

Definition record_ab1 : raw_record :=
  <["field_17_raw" := VDict doc1]> record_ab.

Definition doc2 : file_dict :=
  <["filename" := SStr "_downloads/A__downloads/A_doc.pdf"]> doc.

Definition record_ab2 : raw_record :=
  <["field_17_raw" := VDict doc2]> record_ab.

(** The payload and the record after an assembly without label keys. *)
Definition doc0 : file_dict := <["filename" := SStr "_downloads/doc.pdf"]> doc.

Definition record_ab0 : raw_record :=
  <["field_17_raw" := VDict doc0]> record_ab.

Definition ok_doc : response :=
  Response 200 "%PDF"
    "https://api.knack.com/v1/download/asset/1/doc.pdf".




(** Five assembled descriptors, and a batch whose second transfer is
    answered by a server error. *)
Definition file (n : string) : file_dict :=
  {[ "filename" := SStr ("_downloads/" +:+ n);
     "url" := SStr ("https://files.example/" +:+ n);
     "size" := SInt 1024 ]}.

Definition five : list file_dict :=
  [file "1.pdf"; file "2.pdf"; file "3.pdf"; file "4.pdf"; file "5.pdf"].

Definition ok1 : response :=
  Response 200 "one" "https://files.example/1.pdf".

Definition bad2 : response :=
  Response 500 "" "https://files.example/2.pdf".

Definition first_transfer : list obs :=
  [OHttpGet (SStr "https://files.example/1.pdf") (Ok ok1);
   OOpenWrite (SStr "_downloads/1.pdf") "one" (Ok tt)].

Definition aborted : list obs :=
  first_transfer
  ++ [OHttpGet (SStr "https://files.example/2.pdf") (Ok bad2)].
End Sample.

(** ** Reading a trace of the download executor *)

(** The URLs fetched, the answers they got, and the files written with
    success (name and content), each in the order of the trace. *)
Definition http_calls (tr : list obs) : list scalar :=
  omap (fun o => match o with OHttpGet u _ => Some u | _ => None end) tr.

Definition http_answers (tr : list obs) : list (result response) :=
  omap (fun o => match o with OHttpGet _ a => Some a | _ => None end) tr.

Definition writes (tr : list obs) : list (scalar * string) :=
  omap (fun o => match o with
                 | OOpenWrite fn body (Ok _) => Some (fn, body)
                 | _ => None
                 end) tr.

(** Whether a trace passes through the debugger. *)
Definition has_breakpoint (tr : list obs) : bool := existsb is_breakpoint tr.

(** No call of the trace was answered by an exception or an error status. *)
Definition answered_well (o : obs) : bool :=
  match o with
  | OApiGet _ (Ok _) => true
  | OHttpGet _ (Ok res) => negb (is_error_status res)
  | OOpenWrite _ _ (Ok _) => true
  | OPathExists _ _ => true
  | OMakeDirs _ (Ok _) => true
  | OBreakpoint (Ok _) => true
  | _ => false
  end.

(** One turn of the executor's loop on a descriptor: the calls it makes
    and the exception that ends it, if any. *)
Inductive transfer (humanize_bytes : scalar -> result string)
    (d : file_dict) : list obs -> option exn -> Prop :=
| transfer_fields e :
    descriptor_fields humanize_bytes d = Raise e →
    transfer humanize_bytes d [] (Some e)
| transfer_get_raises fn u e :
    descriptor_fields humanize_bytes d = Ok (fn, u) →
    transfer humanize_bytes d [OHttpGet u (Raise e)] (Some e)
| transfer_status fn u res :
    descriptor_fields humanize_bytes d = Ok (fn, u) →
    is_error_status res = true →
    transfer humanize_bytes d [OHttpGet u (Ok res)] (Some (HTTPError res))
| transfer_write_raises fn u res e :
    descriptor_fields humanize_bytes d = Ok (fn, u) →
    is_error_status res = false →
    transfer humanize_bytes d
      [OHttpGet u (Ok res); OOpenWrite fn (content res) (Raise e)] (Some e)
| transfer_done fn u res :
    descriptor_fields humanize_bytes d = Ok (fn, u) →
    is_error_status res = false →
    transfer humanize_bytes d
      [OHttpGet u (Ok res); OOpenWrite fn (content res) (Ok tt)] None.

(** ** [App.to_csv] *)

Section ToCsv.
(** [Record.format], of [knackpy/records.py], and the [csv] module are not
    among the sources. Parameters: the formatted row of a raw record (the
    dict [record.format()] returns, or the exception it raises), the keys
    of a row, and what [csv.DictWriter] writes for a delimiter, field names
    and rows, with the exception it raises on the way, if any. *)
Variable row : Type.
Variable format_record : raw_record -> result row.
Variable row_keys : row -> list string.
Variable csv_render : string -> list string -> list row -> string * option exn.

(** [[record.format() for record in records]] *)
Fixpoint format_all (recs : list raw_record) : result (list row) :=
  match recs with
  | [] => Ok []
  | raw :: rest =>
      match format_record raw with
      | Raise e => Raise e
      | Ok r =>
          match format_all rest with
          | Raise e => Raise e
          | Ok rs => Ok (r :: rs)
          end
      end
  end.

(** [os.path.join(out_dir, f"{identifier}.csv")] *)
Definition csv_filename (identifier : option string) (out_dir : string)
  : string :=
  posix_join out_dir (str_opt identifier +:+ ".csv").

(** [to_csv] after the output directory is there. *)
Definition to_csv_body (self : App) (identifier : option string)
    (out_dir delimiter : string) : prog (App * result unit) :=
  bind (records self identifier false None None)
    (fun '(self, r) =>
       match r with
       | Raise e => Ret (self, Raise e)
       | Ok g =>
           match format_all (records_raw g) with
           | Raise e => Ret (self, Raise e)
           | Ok [] => Ret (self, Raise (IndexError "list index out of range"))
           | Ok (first :: rest) =>
               let csv_data := first :: rest in
               let fieldnames := row_keys first in
               let fname := csv_filename identifier out_dir in
               let written := csv_render delimiter fieldnames csv_data in
               OpenWrite (SStr fname) (fst written)
                 (fun a =>
                    match a with
                    | Raise e => Ret (self, Raise e)
                    | Ok _ =>
                        match snd written with
                        | Some e => Ret (self, Raise e)
                        | None => Ret (self, Ok tt)
                        end
                    end)
           end
       end).

Definition to_csv (self : App) (identifier : option string)
    (out_dir delimiter : string) : prog (App * result unit) :=
  PathExists out_dir
    (fun ex =>
       if ex then to_csv_body self identifier out_dir delimiter
       else
         MakeDirs out_dir
           (fun a =>
              match a with
              | Raise e => Ret (self, Raise e)
              | Ok _ => to_csv_body self identifier out_dir delimiter
              end)).
End ToCsv.

(** ** Reading a trace, continued *)

(** The files a trace opens for writing, with success or not. *)
Definition open_calls (tr : list obs) : list scalar :=
  omap (fun o => match o with OOpenWrite fn _ _ => Some fn | _ => None end) tr.

(** The exception a call was answered with, if it was. *)
Definition raised (o : obs) : option exn :=
  match o with
  | OApiGet _ (Raise e) | OHttpGet _ (Raise e) | OOpenWrite _ _ (Raise e)
  | OMakeDirs _ (Raise e) | OBreakpoint (Raise e) => Some e
  | _ => None
  end.

(** Whether a raw record carries an attachment under a field: the test
    [if not file_dict: continue] of the assembler. *)
Definition has_attachment (field_key_raw : string) (raw : raw_record) : bool :=
  truthy_value (raw_get raw field_key_raw).

(** The containers an identifier of [None] equals a key of: those whose
    object key or view key is unset. *)
Definition keyless (c : Container) : Prop := obj c = None ∨ view c = None.

#[global] Instance keyless_dec c : Decision (keyless c).
Proof. unfold keyless. apply _. Defined.

(** What the loop may change in a record. *)
Definition only_filename_rewritten (fkr : string) (raw raw' : raw_record)
  : Prop :=
  (∀ k, k ≠ fkr → raw' !! k = raw !! k)
  ∧ (has_attachment fkr raw = false → raw' = raw)
  ∧ (raw' = raw
     ∨ ∃ d path,
         raw !! fkr = Some (VDict d)
         ∧ raw' !! fkr = Some (VDict (<["filename" := SStr path]> d))).

(** ** More sample data *)

Module Sample2.
(** A payload without file name, a record holding it, and a record without
    attachment. *)
Definition nameless : file_dict :=
  {[ "url" := SStr "https://api.knack.com/v1/download/asset/2/x";
     "size" := SInt 12 ]}.

Definition record_nameless : raw_record :=
  {[ "field_17_raw" := VDict nameless; "field_1" := VScalar (SStr "C") ]}.

Definition record_plain : raw_record :=
  {[ "field_17_raw" := VScalar (SStr ""); "field_1" := VScalar (SStr "D") ]}.

(** Stand-ins for [Record.format] and [csv.DictWriter]: a row is the raw
    record, its only column is [id], and the file is a header line. *)
Definition format_record (raw : raw_record) : result raw_record := Ok raw.

Definition row_keys (r : raw_record) : list string := ["id"].

Definition csv_render (delimiter : string) (fieldnames : list string)
    (rows : list raw_record) : string * option exn :=
  ("id", None).
End Sample2.

(** ** Sample data for the edge cases *)

Module Sample3.
(** A payload whose upstream name is an absolute path, and the payload of
    [Sample.doc] after an assembly into the absolute directory [/tmp/dl]
    without label keys; the records holding them. *)
Definition srv : file_dict := <["filename" := SStr "/srv/doc.pdf"]> Sample.doc.

Definition record_srv : raw_record :=
  <["field_17_raw" := VDict srv]> Sample.record_ab.

Definition tmp : file_dict := <["filename" := SStr "/tmp/dl/doc.pdf"]> Sample.doc.

Definition record_tmp : raw_record :=
  <["field_17_raw" := VDict tmp]> Sample.record_ab.


End Sample3.

(** * Properties *)

(** ** Identifier resolution *)

Lemma container_matches_names (s : string) (c : Container) :
  container_matches (Some s) c = bool_decide (names s c).
Proof.
  unfold container_matches, names.
  apply eq_true_iff_eq.
  rewrite !orb_true_iff, !bool_decide_eq_true.
  intuition congruence.
Qed.

Lemma matches_named (self : App) (s : string) :
  List.filter (container_matches (Some s)) (containers self) = named self s.
Proof.
  unfold named. apply List.filter_ext. intros c. apply container_matches_names.
Qed.

(** C4. For every identifier string, [_find_container] returns a container
    exactly when that container is the only one of the registry whose
    object key, view key or name equals the identifier; it raises the
    ambiguity error (a [ValueError]) exactly when two or more containers
    do, and the unknown-container error (an [IndexError]) exactly when none
    does. A successful result is therefore always the single match. *)
Theorem find_container_unique (self : App) (s : string) :
  (∀ c, _find_container self (Some s) = Ok c ↔ named self s = [c])
  ∧ (_find_container self (Some s) = Raise (AmbiguousIdentifier (Some s))
     ↔ (2 ≤ length (named self s))%nat)
  ∧ (_find_container self (Some s) = Raise (UnknownContainer (Some s))
     ↔ named self s = []).
Proof.
  unfold _find_container. rewrite matches_named.
  destruct (named self s) as [| c1 [| c2 l]]; simpl.
  - repeat split; intros; try discriminate; try lia; auto.
  - repeat split; intros H; try discriminate; try congruence;
      try (simpl in H; lia).
  - repeat split; intros H; try discriminate; try (simpl; lia); auto.
Qed.

(** ** Timezone resolution *)

Lemma head_map_filter {A B} (f : A -> B) (p : A -> bool) (l : list A) :
  match List.map f (List.filter p l) with
  | m :: _ => Some m
  | [] => None
  end = f <$> List.find p l.
Proof.
  induction l as [| a l IH]; simpl; [reflexivity |].
  destruct (p a); simpl; [reflexivity | exact IH].
Qed.

(** C3. For every input string, [_get_timezone] returns the handle of the
    input when [pytz] knows it as an IANA name; otherwise it takes the
    first row of the common-name table whose common name equals the input
    up to letter case and returns the handle of that row's IANA name; when
    the input is no IANA name and no row matches (or the row's IANA name
    does not resolve) it raises the unknown-timezone [ValueError], whose
    text refers the caller to the IANA timezone database. *)
Theorem get_timezone_two_tier (tzhandle : Type)
    (pytz_timezone : string -> option tzhandle)
    (TIMEZONES : list TimezoneEntry) (tzinfo : string) :
  _get_timezone tzhandle pytz_timezone TIMEZONES tzinfo =
    match pytz_timezone tzinfo with
    | Some h => Ok h
    | None =>
        match first_common_name TIMEZONES tzinfo with
        | Some row =>
            match pytz_timezone (iana_name row) with
            | Some h => Ok h
            | None => Raise UnknownTimezone
            end
        | None => Raise UnknownTimezone
        end
    end
  ∧ UnknownTimezone = ValueError unknown_timezone_message
  ∧ contains "IANA timezone database" unknown_timezone_message = true.
Proof.
  split; [| split; [reflexivity | vm_compute; reflexivity]].
  unfold _get_timezone, timezone_matches, first_common_name.
  destruct (pytz_timezone tzinfo) as [h |]; [reflexivity |].
  pose proof (head_map_filter iana_name
    (fun tz => bool_decide (lower (common_name tz) = lower tzinfo)) TIMEZONES)
    as H.
  destruct (List.map _ _) as [| m ms]; destruct (List.find _ _) as [row |];
    simpl in H; try discriminate; [reflexivity |].
  injection H as ->. reflexivity.
Qed.

(** ** Label-prefixed file names *)

Lemma labelled_name_app repr (raw : raw_record) (l1 l2 : list string)
    (f : scalar) :
  labelled_name repr raw (l1 ++ l2) f
  = labelled_name repr raw l1 (SStr (labelled_name repr raw l2 f)).
Proof. unfold labelled_name. rewrite foldr_app. reflexivity. Qed.

Lemma prepend_labels_fold_right repr (raw : raw_record) (l : list string)
    (f : scalar) :
  prepend_labels repr raw l f
  = fold_right (fun field fn => prepend_label repr raw fn field) f l.
Proof.
  unfold prepend_labels. induction l as [| k l IH]; [reflexivity |].
  simpl rev. rewrite fold_left_app. simpl. rewrite IH. reflexivity.
Qed.

Lemma prepend_labels_cons repr (raw : raw_record) (k : string)
    (l : list string) (f : scalar) :
  prepend_labels repr raw (k :: l) f
  = SStr (str_value repr (raw_get raw k) +:+ "_"
          +:+ str_scalar (prepend_labels repr raw l f)).
Proof. rewrite !prepend_labels_fold_right. reflexivity. Qed.

Lemma str_prepend_labels repr (raw : raw_record) (l : list string)
    (f : scalar) :
  str_scalar (prepend_labels repr raw l f) = labelled_name repr raw l f.
Proof.
  induction l as [| k l IH]; [reflexivity |].
  rewrite prepend_labels_cons. simpl. rewrite IH. reflexivity.
Qed.

Lemma prepend_labels_nonempty repr (raw : raw_record) (l : list string)
    (f : scalar) :
  l ≠ [] → prepend_labels repr raw l f = SStr (labelled_name repr raw l f).
Proof.
  destruct l as [| k l]; [congruence | intros _].
  rewrite prepend_labels_cons, str_prepend_labels. reflexivity.
Qed.

Lemma assemble_record_payload repr fkr labels out (raw : raw_record)
    (d : file_dict) (f : scalar) :
  raw !! fkr = Some (VDict d) → d !! "filename" = Some f →
  assemble_record repr fkr labels out raw =
    match path_join out (composed_name repr labels raw f) with
    | Raise e => Raise e
    | Ok path => Ok (Some (<["filename" := SStr path]> d))
    end.
Proof.
  intros Hraw Hf. unfold assemble_record, raw_get. rewrite Hraw. simpl.
  assert (d ≠ ∅) as Hne by (intros ->; rewrite lookup_empty in Hf; discriminate).
  rewrite bool_decide_eq_false_2 by exact Hne. simpl. rewrite Hf. reflexivity.
Qed.

(** C2. For every record with an attachment payload and every non-empty
    [label_keys], the reverse loop that prepends ["{value}_"] per label
    key yields the label values in the order of [label_keys], left to
    right, before the upstream file name; the payload's file name becomes
    that name joined to [out_dir]. *)
Theorem label_prefixed_filename repr (fkr : string) (labels : list string)
    (out : string) (raw : raw_record) (d : file_dict) (f : scalar) :
  raw !! fkr = Some (VDict d) → d !! "filename" = Some f → labels ≠ [] →
  prepend_labels repr raw labels f = SStr (labelled_name repr raw labels f)
  ∧ assemble_record repr fkr (Some labels) out raw
    = Ok (Some (<["filename" :=
                   SStr (posix_join out (labelled_name repr raw labels f))]> d)).
Proof.
  intros Hraw Hf Hne.
  pose proof (prepend_labels_nonempty repr raw labels f Hne) as Hp.
  split; [exact Hp |].
  rewrite (assemble_record_payload _ _ _ _ _ _ _ Hraw Hf).
  destruct labels as [| k l]; [congruence |].
  unfold composed_name. simpl truthy_list. cbv iota. simpl default.
  rewrite Hp. reflexivity.
Qed.

(** The specification's example: labels [field_1], [field_2] holding "A"
    and "B", upstream name "doc.pdf". *)
Lemma label_prefixed_filename_example :
  (Sample.record_ab !! "field_17_raw" = Some (VDict Sample.doc)
   ∧ Sample.doc !! "filename" = Some (SStr "doc.pdf")
   ∧ ["field_1"; "field_2"] ≠ [])
  ∧ prepend_labels Sample.repr_dict Sample.record_ab ["field_1"; "field_2"]
      (SStr "doc.pdf") = SStr "A_B_doc.pdf"
  ∧ assemble_record Sample.repr_dict "field_17_raw"
      (Some ["field_1"; "field_2"]) "_downloads" Sample.record_ab
    = Ok (Some (<["filename" := SStr "_downloads/A_B_doc.pdf"]> Sample.doc)).
Proof.
  assert (Sample.record_ab !! "field_17_raw" = Some (VDict Sample.doc)) as H1
    by (vm_compute; reflexivity).
  assert (Sample.doc !! "filename" = Some (SStr "doc.pdf")) as H2
    by (vm_compute; reflexivity).
  assert (["field_1"; "field_2"] ≠ @nil string) as H3 by discriminate.
  split; [auto |].
  exact (label_prefixed_filename Sample.repr_dict "field_17_raw"
           ["field_1"; "field_2"] "_downloads" Sample.record_ab Sample.doc
           (SStr "doc.pdf") H1 H2 H3).
Defined.

(** ** Missing label values *)

Lemma str_value_missing repr (raw : raw_record) (k : string) :
  raw !! k = None → str_value repr (raw_get raw k) = "None".
Proof. intros H. unfold raw_get. rewrite H. reflexivity. Qed.

(** C5, as corrected. For every record with an attachment payload, a key of
    [label_keys] that is absent from the record's raw data does not make
    the assembly of the record fail; its label segment is the text [None]
    (what the f-string prints for the missing value), followed by the
    underscore, not an empty segment. *)
Theorem missing_label_prints_None repr (fkr : string) (l1 : list string)
    (k : string) (l2 : list string) (out : string) (raw : raw_record)
    (d : file_dict) (f : scalar) :
  raw !! fkr = Some (VDict d) → d !! "filename" = Some f → raw !! k = None →
  assemble_record repr fkr (Some (l1 ++ k :: l2)) out raw
  = Ok (Some (<["filename" :=
                 SStr (posix_join out
                         (labelled_name repr raw l1
                            (SStr ("None_" +:+ labelled_name repr raw l2 f))))]>
                d)).
Proof.
  intros Hraw Hf Hk.
  assert (l1 ++ k :: l2 ≠ []) as Hne by (destruct l1; discriminate).
  rewrite (assemble_record_payload _ _ _ _ _ _ _ Hraw Hf).
  unfold composed_name.
  replace (truthy_list (Some (l1 ++ k :: l2))) with true
    by (destruct l1; reflexivity).
  simpl default. rewrite (prepend_labels_nonempty repr raw _ f Hne).
  rewrite labelled_name_app. simpl path_join. do 5 f_equal.
  unfold labelled_name at 1. simpl.
  rewrite (str_value_missing repr raw k Hk). reflexivity.
Qed.

Lemma missing_label_prints_None_example :
  (Sample.record_ab !! "field_17_raw" = Some (VDict Sample.doc)
   ∧ Sample.doc !! "filename" = Some (SStr "doc.pdf")
   ∧ Sample.record_ab !! "field_9" = None)
  ∧ assemble_record Sample.repr_dict "field_17_raw"
      (Some (["field_1"] ++ "field_9" :: ["field_2"])) "_downloads"
      Sample.record_ab
    = Ok (Some (<["filename" := SStr "_downloads/A_None_B_doc.pdf"]>
                  Sample.doc)).
Proof.
  assert (Sample.record_ab !! "field_17_raw" = Some (VDict Sample.doc)) as H1
    by (vm_compute; reflexivity).
  assert (Sample.doc !! "filename" = Some (SStr "doc.pdf")) as H2
    by (vm_compute; reflexivity).
  assert (Sample.record_ab !! "field_9" = None) as H3
    by (vm_compute; reflexivity).
  split; [auto |].
  exact (missing_label_prints_None Sample.repr_dict "field_17_raw"
           ["field_1"] "field_9" ["field_2"] "_downloads" Sample.record_ab
           Sample.doc (SStr "doc.pdf") H1 H2 H3).
Defined.

(** The label key [field_9] is absent from the record: the assembled name
    is [None_doc.pdf], where an empty segment would give [_doc.pdf]. *)
Lemma missing_label_not_empty_segment :
  Sample.record_ab !! "field_9" = None
  ∧ ∃ d, assemble_record Sample.repr_dict "field_17_raw" (Some ["field_9"])
           "_downloads" Sample.record_ab = Ok (Some d)
         ∧ d !! "filename" = Some (SStr "_downloads/None_doc.pdf")
         ∧ d !! "filename" ≠ Some (SStr ("_downloads/" +:+ "" +:+ "_doc.pdf")).
Proof.
  split; [vm_compute; reflexivity |].
  exists (<["filename" := SStr "_downloads/None_doc.pdf"]> Sample.doc).
  split; [vm_compute; reflexivity |].
  split; [vm_compute; reflexivity | vm_compute; discriminate].
Qed.

(** ** Runs of programs *)

Lemma runs_Ret_inv {R} (a : R) tr r : runs (Ret a) tr r → tr = [] ∧ r = a.
Proof. inversion 1; subst; auto. Qed.

Lemma runs_bind {A B} (p : prog A) (f : A -> prog B) tr1 a tr2 r :
  runs p tr1 a → runs (f a) tr2 r → runs (bind p f) (tr1 ++ tr2) r.
Proof.
  induction 1; intros Hf; simpl; [exact Hf | ..]; constructor; auto.
Qed.

Lemma runs_bind_inv {A B} (p : prog A) (f : A -> prog B) tr r :
  runs (bind p f) tr r →
  ∃ tr1 a tr2, runs p tr1 a ∧ runs (f a) tr2 r ∧ tr = tr1 ++ tr2.
Proof.
  revert tr. induction p as [a | rq k IH | u k IH | fn body k IH | q k IH
                            | q k IH | k IH]; intros tr H; simpl in H.
  { exists [], a, tr. split; [constructor | split; [exact H | reflexivity]]. }
  all: inversion H; subst;
    match goal with
    | Hr : runs (bind _ _) _ _ |- _ =>
        destruct (IH _ _ Hr) as (tr1 & a' & tr2 & Hp & Hf & ->);
        eexists (_ :: tr1), a', tr2;
        (split; [constructor; exact Hp | split; [exact Hf | reflexivity]])
    end.
Qed.

Lemma api_calls_app tr1 tr2 : api_calls (tr1 ++ tr2) = api_calls tr1 ++ api_calls tr2.
Proof. unfold api_calls. apply omap_app. Qed.

(** ** The record cache *)

(** The container a call of [records] works on. *)
Lemma records_resolved (self : App) identifier id' c refresh lim fil :
  effective_identifier self identifier = Ok id' →
  _find_container self id' = Ok c →
  records self identifier refresh lim fil =
    let key := py_or (obj c) (view c) in
    match data self !! key with
    | Some (r :: b) =>
        if refresh then fetch_records self c key lim fil
        else Ret (self, Ok (mkRecords key (r :: b)))
    | _ => fetch_records self c key lim fil
    end.
Proof. intros H1 H2. unfold records. rewrite H1, H2. reflexivity. Qed.

Lemma runs_fetch_records (self : App) c key lim fil tr out :
  runs (fetch_records self c key lim fil) tr out →
  ∃ a, tr = [OApiGet (records_request self c lim fil) a]
       ∧ out = match a with
               | Raise e => (self, Raise e)
               | Ok b => (set_data self (<[key := b]> (data self)),
                          Ok (mkRecords key b))
               end.
Proof.
  unfold fetch_records. inversion 1; subst. exists a.
  destruct a; apply runs_Ret_inv in H4 as [-> ->]; auto.
Qed.

Lemma map_to_list_single {K V} `{Countable K} (m : gmap K V) k x :
  map_to_list m = [(k, x)] → m = {[k := x]}.
Proof.
  intros Hl. rewrite <- (list_to_map_to_list m), Hl. simpl.
  rewrite insert_empty. reflexivity.
Qed.

(** After a fetch for the container, the same identifier is looked up
    again, when it was supplied or when the only cached key is the
    container's own key. *)
Lemma effective_identifier_after_fetch (self : App) identifier id' key b :
  effective_identifier self identifier = Ok id' →
  truthy_opt identifier = true ∨ key = id' →
  effective_identifier (set_data self (<[key := b]> (data self))) identifier
  = Ok id'.
Proof.
  unfold effective_identifier. intros H Hor.
  destruct (truthy_opt identifier); [exact H |].
  destruct Hor as [Hor | ->]; [discriminate |].
  destruct (map_to_list (data self)) as [| [k x] [| ? ?]] eqn:Hl;
    try discriminate.
  injection H as ->. apply map_to_list_single in Hl. simpl. rewrite Hl.
  rewrite insert_singleton_eq, map_to_list_singleton. reflexivity.
Qed.

(** C1, as corrected. For every container whose cache entry holds at least
    one record, [records] with [refresh = False] returns that cached batch,
    makes no transport call and leaves the cache as it is, whatever
    [record_limit] and [filters] are. Hence of two consecutive calls with
    [refresh = False], the first returning a batch that is not empty, the
    second returns the same data and makes no transport call: the two make
    one transport call in total when the container had no such entry
    before, and none otherwise. *)
Theorem records_cache_idempotent (self : App) (identifier id' : option string)
    (c : Container) (lim1 lim2 : option Z) (fil1 fil2 : option Filters) :
  effective_identifier self identifier = Ok id' →
  _find_container self id' = Ok c →
  truthy_opt identifier = true ∨ py_or (obj c) (view c) = id' →
  let key := py_or (obj c) (view c) in
  (∀ r b, data self !! key = Some (r :: b) →
          records self identifier false lim1 fil1
          = Ret (self, Ok (mkRecords key (r :: b))))
  ∧ (∀ tr1 self1 g1 tr2 out2,
       runs (records self identifier false lim1 fil1) tr1 (self1, Ok g1) →
       records_data g1 ≠ [] →
       runs (records self1 identifier false lim2 fil2) tr2 out2 →
       out2 = (self1, Ok g1) ∧ tr2 = []
       ∧ length (api_calls (tr1 ++ tr2))
         = match data self !! key with
           | Some (_ :: _) => 0%nat
           | _ => 1%nat
           end).
Proof.
  intros Hid Hc Hor key. split.
  - intros r b Hd. rewrite (records_resolved _ _ _ _ _ _ _ Hid Hc).
    fold key. simpl. rewrite Hd. reflexivity.
  - intros tr1 self1 g1 tr2 out2 H1 Hne H2.
    rewrite (records_resolved _ _ _ _ _ _ _ Hid Hc) in H1. fold key in H1.
    simpl in H1.
    assert (∀ self1' g1', (self1, @Ok Records g1) = (self1', Ok g1') →
              effective_identifier self1' identifier = Ok id' →
              _find_container self1' id' = Ok c →
              data self1' !! key = Some (records_data g1') →
              container_key g1' = key →
              out2 = (self1, Ok g1) ∧ tr2 = []) as Hsecond.
    { intros self1' g1' Heq Hid' Hc' Hd' Hk. injection Heq as <- <-.
      rewrite (records_resolved _ _ _ _ _ _ _ Hid' Hc') in H2. fold key in H2.
      simpl in H2. rewrite Hd' in H2. destruct g1 as [k1 [| r b]];
        simpl in *; [congruence |].
      apply runs_Ret_inv in H2 as [-> ->]. subst k1. auto. }
    assert (∀ tr, runs (fetch_records self c key lim1 fil1) tr (self1, Ok g1) →
              (out2 = (self1, Ok g1) ∧ tr2 = [])
              ∧ length (api_calls (tr ++ tr2)) = 1%nat) as Hcold.
    { intros tr Hf. apply runs_fetch_records in Hf as (a & -> & Ha).
      destruct a as [b | e]; [| discriminate].
      assert (out2 = (self1, Ok g1) ∧ tr2 = []) as [-> ->].
      { eapply Hsecond; [exact Ha | | exact Hc | ..]; simpl.
        - apply effective_identifier_after_fetch; assumption.
        - apply lookup_insert_eq.
        - reflexivity. }
      auto. }
    destruct (data self !! key) as [[| r b] |] eqn:Hd.
    + destruct (Hcold _ H1) as [[-> ->] ?]. auto.
    + apply runs_Ret_inv in H1 as [-> H1].
      assert (out2 = (self1, Ok g1) ∧ tr2 = []) as [-> ->]; [| auto].
      eapply Hsecond; [exact H1 | exact Hid | exact Hc | exact Hd | reflexivity].
    + destruct (Hcold _ H1) as [[-> ->] ?]. auto.
Qed.

(** A first call on an empty cache fetches one record; the second call
    returns it again without a transport call. *)
Lemma records_cache_idempotent_example :
  let self := Sample.app ∅ in
  let rq := records_request self Sample.customers (Some 10) None in
  let g1 := mkRecords (Some "object_1") [Sample.record_ab] in
  let self1 := set_data self (<[Some "object_1" := [Sample.record_ab]]> ∅) in
  (effective_identifier self (Some "object_1") = Ok (Some "object_1")
   ∧ _find_container self (Some "object_1") = Ok Sample.customers
   ∧ runs (records self (Some "object_1") false (Some 10) None)
       [OApiGet rq (Ok [Sample.record_ab])] (self1, Ok g1))
  ∧ ∀ tr2 out2,
      runs (records self1 (Some "object_1") false None
              (Some (FilterRules [("field_1", "is", "A")]))) tr2 out2 →
      out2 = (self1, Ok g1) ∧ tr2 = []
      ∧ length (api_calls ([OApiGet rq (Ok [Sample.record_ab])] ++ tr2))
        = 1%nat.
Proof.
  intros self rq g1 self1.
  assert (effective_identifier self (Some "object_1") = Ok (Some "object_1"))
    as H1 by (vm_compute; reflexivity).
  assert (_find_container self (Some "object_1") = Ok Sample.customers)
    as H2 by (vm_compute; reflexivity).
  assert (runs (records self (Some "object_1") false (Some 10) None)
            [OApiGet rq (Ok [Sample.record_ab])] (self1, Ok g1)) as H3.
  { rewrite (records_resolved _ _ _ _ _ _ _ H1 H2).
    apply (runs_ApiGet rq _ (Ok [Sample.record_ab])). apply runs_Ret. }
  split; [auto |]. intros tr2 out2 Hrun.
  exact (proj2 (records_cache_idempotent self (Some "object_1")
                  (Some "object_1") Sample.customers (Some 10) None None
                  (Some (FilterRules [("field_1", "is", "A")]))
                  H1 H2 (or_introl eq_refl))
           _ self1 g1 tr2 out2 H3 ltac:(discriminate) Hrun).
Defined.

(** The cache holds an entry for the container, an empty batch: the call
    with [refresh = False] does not return it but goes to the transport,
    and two consecutive calls make two transport calls. *)
Lemma records_refetches_empty_batch :
  let self := Sample.app {[ Some "object_1" := [] ]} in
  let rq := records_request self Sample.customers None None in
  _find_container self (Some "object_1") = Ok Sample.customers
  ∧ data self !! Some "object_1" = Some []
  ∧ (∀ tr out, runs (records self (Some "object_1") false None None) tr out →
               length (api_calls tr) = 1%nat)
  ∧ runs (records self (Some "object_1") false None None)
      [OApiGet rq (Ok [Sample.record_ab])]
      (Sample.app {[ Some "object_1" := [Sample.record_ab] ]},
       Ok (mkRecords (Some "object_1") [Sample.record_ab]))
  ∧ runs (bind (records self (Some "object_1") false None None)
            (fun out => records (fst out) (Some "object_1") false None None))
      [OApiGet rq (Ok []); OApiGet rq (Ok [])]
      (self, Ok (mkRecords (Some "object_1") [])).
Proof.
  intros self rq.
  assert (effective_identifier self (Some "object_1") = Ok (Some "object_1"))
    as H1 by (vm_compute; reflexivity).
  assert (_find_container self (Some "object_1") = Ok Sample.customers)
    as H2 by (vm_compute; reflexivity).
  assert (data self !! Some "object_1" = Some []) as H3
    by (vm_compute; reflexivity).
  pose proof (records_resolved self _ _ _ false None None H1 H2) as Hr.
  cbv zeta in Hr.
  change (py_or (obj Sample.customers) (view Sample.customers))
    with (Some "object_1") in Hr.
  rewrite H3 in Hr.
  split; [exact H2 |]. split; [exact H3 |]. rewrite Hr. split; [| split].
  - intros tr out Hrun. apply runs_fetch_records in Hrun as (a & -> & _).
    reflexivity.
  - apply (runs_ApiGet _ _ (Ok [Sample.record_ab])).
    replace (Sample.app {[ Some "object_1" := [Sample.record_ab] ]})
      with (set_data self
              (<[Some "object_1" := [Sample.record_ab]]> (data self)))
      by (vm_compute; reflexivity).
    apply runs_Ret.
  - assert (set_data self (<[Some "object_1" := []]> (data self)) = self)
      as Hself by (vm_compute; reflexivity).
    apply (runs_ApiGet _ _ (Ok [])). cbn [bind fst]. rewrite Hself, Hr.
    apply (runs_ApiGet _ _ (Ok [])). rewrite Hself. apply runs_Ret.
Qed.

(** ** The download executor *)

Lemma runs_ApiGet_inv {R} rq k tr (r : R) :
  runs (ApiGet rq k) tr r → ∃ a tr', tr = OApiGet rq a :: tr' ∧ runs (k a) tr' r.
Proof. inversion 1; subst; eauto. Qed.

Lemma runs_HttpGet_inv {R} u k tr (r : R) :
  runs (HttpGet u k) tr r → ∃ a tr', tr = OHttpGet u a :: tr' ∧ runs (k a) tr' r.
Proof. inversion 1; subst; eauto. Qed.

Lemma runs_OpenWrite_inv {R} fn body k tr (r : R) :
  runs (OpenWrite fn body k) tr r →
  ∃ a tr', tr = OOpenWrite fn body a :: tr' ∧ runs (k a) tr' r.
Proof. inversion 1; subst; eauto. Qed.

Lemma runs_PathExists_inv {R} p k tr (r : R) :
  runs (PathExists p k) tr r →
  ∃ a tr', tr = OPathExists p a :: tr' ∧ runs (k a) tr' r.
Proof. inversion 1; subst; eauto. Qed.

Lemma runs_MakeDirs_inv {R} p k tr (r : R) :
  runs (MakeDirs p k) tr r →
  ∃ a tr', tr = OMakeDirs p a :: tr' ∧ runs (k a) tr' r.
Proof. inversion 1; subst; eauto. Qed.

Lemma runs_Breakpoint_inv {R} k tr (r : R) :
  runs (Breakpoint k) tr r →
  ∃ a tr', tr = OBreakpoint a :: tr' ∧ runs (k a) tr' r.
Proof. inversion 1; subst; eauto. Qed.

Section ExecutorFacts.
Variable hb : scalar -> result string.

Lemma descriptor_fields_ok (d : file_dict) fn u :
  descriptor_fields hb d = Ok (fn, u) →
  d !! "filename" = Some fn ∧ d !! "url" = Some u.
Proof.
  unfold descriptor_fields, subscript.
  destruct (d !! "filename") as [fn' |]; [| discriminate].
  destruct (d !! "size") as [sz |]; [| discriminate].
  destruct (hb sz); [| discriminate].
  destruct (d !! "url") as [u' |]; [| discriminate].
  intros [= -> ->]. auto.
Qed.

(** A turn of the loop either ends the loop with an exception or is a
    complete transfer followed by the loop on the remaining descriptors. *)
Lemma runs_download_loop_cons (d : file_dict) ds c tr r :
  runs (download_loop hb (d :: ds) c) tr r →
  (∃ e, transfer hb d tr (Some e) ∧ r = Raise e)
  ∨ (∃ t1 t2, transfer hb d t1 None
              ∧ runs (download_loop hb ds (S c)) t2 r ∧ tr = t1 ++ t2).
Proof.
  simpl. destruct (descriptor_fields hb d) as [[fn u] | e] eqn:Hf.
  - intros H. apply runs_HttpGet_inv in H as ([res | e] & tr' & -> & H).
    + unfold raise_for_status in H.
      destruct (is_error_status res) eqn:Hs.
      * apply runs_Ret_inv in H as [-> ->]. left. eexists.
        split; [eapply transfer_status; eauto | reflexivity].
      * apply runs_OpenWrite_inv in H as ([[] | e] & tr'' & -> & H).
        -- right. eexists _, tr''.
           split; [eapply transfer_done; eauto | split; [exact H | reflexivity]].
        -- apply runs_Ret_inv in H as [-> ->]. left. eexists.
           split; [eapply transfer_write_raises; eauto | reflexivity].
    + apply runs_Ret_inv in H as [-> ->]. left. eexists.
      split; [eapply transfer_get_raises; eauto | reflexivity].
  - intros H. apply runs_Ret_inv in H as [-> ->]. left. eexists.
    split; [eapply transfer_fields; eauto | reflexivity].
Qed.

(** The transfers are attempted in the order of the descriptors. *)
Lemma download_loop_in_order ds c tr r :
  runs (download_loop hb ds c) tr r →
  ∃ n, (n ≤ length ds)%nat
       ∧ Some <$> http_calls tr = (λ d : file_dict, d !! "url") <$> take n ds.
Proof.
  revert c tr. induction ds as [| d ds IH]; intros c tr H.
  - apply runs_Ret_inv in H as [-> _]. exists 0%nat. auto.
  - apply runs_download_loop_cons in H
      as [(e & Ht & _) | (t1 & t2 & Ht & H & ->)].
    + inversion Ht; subst;
        first
          [ exists 0%nat; simpl; split; [lia | reflexivity]
          | match goal with
            | Hf : descriptor_fields _ _ = Ok _ |- _ =>
                apply descriptor_fields_ok in Hf as [_ Hu]
            end;
            exists 1%nat; simpl; rewrite Hu; split; [lia | reflexivity] ].
    + destruct (IH _ _ H) as (n & Hn & Heq).
      inversion Ht as [| | | | fn u res Hf]; subst.
      apply descriptor_fields_ok in Hf as [_ Hu].
      exists (S n). simpl. split; [lia |]. simpl in Heq.
      rewrite Hu. f_equal. exact Heq.
Qed.

(** An error status ends the run: nothing is attempted after it, and the
    files of all earlier descriptors have been written. *)
Lemma download_loop_aborts ds c tr r tr1 u res tr2 :
  runs (download_loop hb ds c) tr r →
  tr = tr1 ++ OHttpGet u (Ok res) :: tr2 →
  is_error_status res = true →
  tr2 = [] ∧ r = Raise (HTTPError res)
  ∧ Some <$> (fst <$> writes tr1)
    = (λ d : file_dict, d !! "filename") <$> take (length (http_calls tr1)) ds.
Proof.
  revert c tr tr1. induction ds as [| d ds IH]; intros c tr tr1 H Heq Hs.
  - apply runs_Ret_inv in H as [-> _]. destruct tr1; discriminate.
  - apply runs_download_loop_cons in H
      as [(e & Ht & ->) | (t1 & t2 & Ht & H & ->)].
    + inversion Ht as [| fn u' e' Hf | fn u' res' Hf | fn u' res' e' Hf Hs' |];
        subst; destruct tr1 as [| o1 [| o2 tr1]]; simplify_eq/=; auto;
        try congruence;
        exfalso; eapply app_cons_not_nil; eassumption.
    + inversion Ht as [| | | | fn u' res' Hf Hs']; subst.
      destruct tr1 as [| o1 [| o2 tr1]]; simplify_eq/=; [congruence |].
      destruct (IH _ _ _ H eq_refl Hs) as (-> & -> & Hw).
      apply descriptor_fields_ok in Hf as [Hfn _].
      rewrite Hfn. repeat split. f_equal. exact Hw.
Qed.

(** A run that returns a count has transferred every descriptor. *)
Lemma download_loop_count ds c tr c' :
  runs (download_loop hb ds c) tr (Ok c') →
  c' = (c + length ds)%nat
  ∧ Some <$> http_calls tr = (λ d : file_dict, d !! "url") <$> ds
  ∧ Some <$> (fst <$> writes tr) = (λ d : file_dict, d !! "filename") <$> ds
  ∧ forallb answered_well tr = true.
Proof.
  revert c tr. induction ds as [| d ds IH]; intros c tr H.
  - apply runs_Ret_inv in H as [-> [= ->]]. simpl. auto with lia.
  - apply runs_download_loop_cons in H
      as [(e & Ht & ?) | (t1 & t2 & Ht & H & ->)]; [discriminate |].
    destruct (IH _ _ H) as (-> & Hu & Hw & Hg).
    inversion Ht as [| | | | fn u res Hf Hs]; subst.
    apply descriptor_fields_ok in Hf as [Hfn Hurl]. simpl.
    rewrite Hfn, Hurl, Hs. simpl. repeat split; [lia | | |]; try f_equal; auto.
Qed.

(** When every call is answered well, the run returns the number of
    descriptors. *)
Lemma download_loop_all_well ds c tr r :
  runs (download_loop hb ds c) tr r →
  Forall (λ d, ∃ x, descriptor_fields hb d = Ok x) ds →
  forallb answered_well tr = true →
  r = Ok (c + length ds)%nat.
Proof.
  revert c tr. induction ds as [| d ds IH]; intros c tr H Hwf Hg.
  - apply runs_Ret_inv in H as [-> ->]. simpl. f_equal. lia.
  - inversion Hwf as [| ? ? [x Hx] Hwf']; subst.
    apply runs_download_loop_cons in H
      as [(e & Ht & ->) | (t1 & t2 & Ht & H & ->)].
    + inversion Ht as [e' Hf | fn u e' Hf | fn u res Hf Hs
                      | fn u res e' Hf Hs |]; subst; simpl in Hg;
        try congruence; try discriminate.
      * rewrite Hs in Hg. discriminate.
      * rewrite andb_false_r in Hg. discriminate.
    + rewrite forallb_app in Hg. apply andb_true_iff in Hg as [_ Hg].
      rewrite (IH _ _ H Hwf' Hg). simpl. f_equal. lia.
Qed.

(** Such a run exists for every list of successful responses. *)
Lemma download_loop_succeeds ds c (resps : list response) :
  length resps = length ds →
  Forall (λ res, is_error_status res = false) resps →
  Forall (λ d, ∃ x, descriptor_fields hb d = Ok x) ds →
  ∃ tr, runs (download_loop hb ds c) tr (Ok (c + length ds)%nat)
        ∧ http_answers tr = Ok <$> resps
        ∧ snd <$> writes tr = content <$> resps.
Proof.
  revert c resps. induction ds as [| d ds IH]; intros c resps Hlen Hok Hwf.
  - destruct resps; [| discriminate]. exists []. simpl.
    replace (c + 0)%nat with c by lia. repeat split. constructor.
  - destruct resps as [| res resps]; [discriminate |].
    inversion Hok as [| ? ? Hs Hok']; subst.
    inversion Hwf as [| ? ? [[fn u] Hx] Hwf']; subst.
    simpl in Hlen. injection Hlen as Hlen.
    destruct (IH (S c) resps Hlen Hok' Hwf') as (tr & Hrun & Ha & Hw).
    exists (OHttpGet u (Ok res) :: OOpenWrite fn (content res) (Ok tt) :: tr).
    split; [| split; simpl; f_equal; assumption].
    simpl. rewrite Hx. apply runs_HttpGet. unfold raise_for_status.
    rewrite Hs. apply runs_OpenWrite.
    replace (c + S (length ds))%nat with (S c + length ds)%nat by lia.
    exact Hrun.
Qed.
End ExecutorFacts.

(** C7. Every run of [_download_files] attempts the transfers in the order
    of the descriptors, for a prefix of them. A response with an error
    status ends the run at once with the [HTTPError] of that response:
    nothing follows it in the trace, and the files of all earlier
    descriptors have been written and are not touched again. A run that
    returns a count returns the number of descriptors, having fetched the
    URL and written the file of each one in turn; it is the result whenever
    every call is answered well, and such a run exists for any successful
    responses. *)
Theorem download_files_abort_and_count (hb : scalar -> result string)
    (ds : list file_dict) (tr : list obs) (r : result nat) :
  runs (_download_files hb ds) tr r →
  (∃ n, (n ≤ length ds)%nat
        ∧ Some <$> http_calls tr = (λ d : file_dict, d !! "url") <$> take n ds)
  ∧ (∀ tr1 u res tr2,
       tr = tr1 ++ OHttpGet u (Ok res) :: tr2 →
       is_error_status res = true →
       tr2 = [] ∧ r = Raise (HTTPError res)
       ∧ Some <$> (fst <$> writes tr1)
         = (λ d : file_dict, d !! "filename")
             <$> take (length (http_calls tr1)) ds)
  ∧ (∀ c, r = Ok c →
          c = length ds
          ∧ Some <$> http_calls tr = (λ d : file_dict, d !! "url") <$> ds
          ∧ Some <$> (fst <$> writes tr)
            = (λ d : file_dict, d !! "filename") <$> ds
          ∧ forallb answered_well tr = true)
  ∧ (Forall (λ d, ∃ x, descriptor_fields hb d = Ok x) ds →
     forallb answered_well tr = true → r = Ok (length ds))
  ∧ (∀ resps : list response,
       length resps = length ds →
       Forall (λ res, is_error_status res = false) resps →
       Forall (λ d, ∃ x, descriptor_fields hb d = Ok x) ds →
       ∃ tr', runs (_download_files hb ds) tr' (Ok (length ds))
              ∧ http_answers tr' = Ok <$> resps
              ∧ snd <$> writes tr' = content <$> resps).
Proof.
  unfold _download_files. intros H. repeat split.
  - exact (download_loop_in_order hb ds 0 tr r H).
  - eapply download_loop_aborts; eauto.
  - eapply download_loop_aborts; eauto.
  - eapply download_loop_aborts; eauto.
  - subst r. apply (download_loop_count hb ds 0 tr c H).
  - subst r. apply (download_loop_count hb ds 0 tr c H).
  - subst r. apply (download_loop_count hb ds 0 tr c H).
  - subst r. apply (download_loop_count hb ds 0 tr c H).
  - intros Hwf Hg. exact (download_loop_all_well hb ds 0 tr r H Hwf Hg).
  - intros resps Hlen Hok Hwf.
    exact (download_loop_succeeds hb ds 0 resps Hlen Hok Hwf).
Qed.

(** The second of five transfers fails: the run ends there, transfers 3 to
    5 are not attempted, and the first file has been written. *)
Lemma download_files_second_of_five_fails :
  runs (_download_files Sample.humanize_bytes Sample.five) Sample.aborted
    (Raise (HTTPError Sample.bad2))
  ∧ (∃ n, (n ≤ length Sample.five)%nat
          ∧ Some <$> http_calls Sample.aborted
            = (λ d : file_dict, d !! "url") <$> take n Sample.five)
  ∧ Some <$> (fst <$> writes Sample.first_transfer)
    = (λ d : file_dict, d !! "filename") <$> take 1 Sample.five.
Proof.
  assert (runs (_download_files Sample.humanize_bytes Sample.five)
            Sample.aborted (Raise (HTTPError Sample.bad2))) as Hrun.
  { vm_compute. apply runs_HttpGet. vm_compute. apply runs_OpenWrite.
    vm_compute. apply runs_HttpGet. vm_compute. apply runs_Ret. }
  split; [exact Hrun |].
  destruct (download_files_abort_and_count Sample.humanize_bytes Sample.five
              Sample.aborted _ Hrun) as (Horder & Habort & _).
  split; [exact Horder |].
  exact (proj2 (proj2 (Habort Sample.first_transfer _ Sample.bad2 []
                         eq_refl eq_refl))).
Defined.

(** ** Field lookup in [download] *)

(** [download] raises the field error exactly when no field definition
    matches the field and has the identifier string itself as object key. *)
Lemma download_body_unknown_field repr hb (self : App)
    (identifier : option string) (field out : string)
    (labels : option (list string)) (c : Container) :
  _find_container self identifier = Ok c →
  _find_field_def self field identifier = [] →
  download_body repr hb self identifier field out labels
  = Ret (self, Raise (UnknownField field)).
Proof. intros Hc Hf. unfold download_body. rewrite Hc, Hf. reflexivity. Qed.

(** C6, on the failing input. The container is named by its name,
    [Customers]; the field [field_17] is defined on that container, whose
    object key is [object_1]; [download] nevertheless raises the
    field-not-found error, because the field definitions are filtered by
    the identifier string and not by the container's object key. *)
Lemma download_by_name_field_not_found :
  let self := Sample.app ∅ in
  _find_container self (Some "Customers") = Ok Sample.customers
  ∧ _find_field_def self "field_17" (obj Sample.customers) = [Sample.attachment]
  ∧ _find_field_def self "field_17" (Some "Customers") = []
  ∧ download_body Sample.repr_dict Sample.humanize_bytes self
      (Some "Customers") "field_17" "_downloads" None
    = Ret (self, Raise (UnknownField "field_17"))
  ∧ runs (download Sample.repr_dict Sample.humanize_bytes self
            (Some "Customers") "field_17" "_downloads" None)
      [OPathExists "_downloads" true]
      (self, Raise (ValueError "Field not found: 'field_17'")).
Proof.
  intros self.
  assert (_find_container self (Some "Customers") = Ok Sample.customers) as Hc
    by (vm_compute; reflexivity).
  assert (_find_field_def self "field_17" (Some "Customers") = []) as Hf
    by (vm_compute; reflexivity).
  pose proof (download_body_unknown_field Sample.repr_dict
                Sample.humanize_bytes self (Some "Customers") "field_17"
                "_downloads" None _ Hc Hf) as Hb.
  split; [exact Hc |]. split; [vm_compute; reflexivity |].
  split; [exact Hf |]. split; [exact Hb |].
  unfold download. apply (runs_PathExists _ _ true). rewrite Hb.
  apply runs_Ret.
Qed.

(** ** The download assembler *)

Lemma find_container_set_data (self : App) d identifier :
  _find_container (set_data self d) identifier = _find_container self identifier.
Proof. reflexivity. Qed.

(** Every run of the assembler is a run of [records], then the loop, then
    the call of the debugger when the loop has built the list. *)
Lemma runs_assemble_inv repr (self : App) identifier fk labels out tr self' r :
  runs (_assemble_downloads repr self identifier fk labels out) tr (self', r) →
  ∃ tr0 self0 r0,
    runs (records self identifier false None None) tr0 (self0, r0)
    ∧ match r0 with
      | Raise e => tr = tr0 ∧ self' = self0 ∧ r = Raise e
      | Ok g =>
          let lr := assemble_loop repr (fk +:+ "_raw") labels out
                      (records_raw g) in
          self' = set_data self0 (<[container_key g := lr.1]> (data self0))
          ∧ match lr.2 with
            | Raise e => tr = tr0 ∧ r = Raise e
            | Ok ds =>
                ∃ a, tr = tr0 ++ [OBreakpoint a]
                     ∧ r = match a with
                           | Ok _ => Ok ds
                           | Raise e => Raise e
                           end
            end
      end.
Proof.
  unfold _assemble_downloads. intros H.
  apply runs_bind_inv in H as (tr0 & [self0 r0] & tr2 & H0 & H2 & ->).
  exists tr0, self0, r0. split; [exact H0 |].
  destruct r0 as [g | e]; simpl in H2.
  - destruct (assemble_loop repr (fk +:+ "_raw") labels out (records_raw g))
      as [b' [ds | e]]; simpl.
    + apply runs_Breakpoint_inv in H2 as (a & tr' & -> & H2).
      destruct a as [[] | e]; apply runs_Ret_inv in H2 as [-> [= -> ->]];
        (split; [reflexivity | eexists; split; reflexivity]).
    + apply runs_Ret_inv in H2 as [-> [= -> ->]].
      rewrite app_nil_r. auto.
  - apply runs_Ret_inv in H2 as [-> [= -> ->]]. rewrite app_nil_r. auto.
Qed.

(** Conversely, when [records] returns and the loop builds the list, the
    run goes on with the call of the debugger. *)
Lemma runs_assemble_intro repr (self : App) identifier fk labels out
    tr0 self0 g b' ds a :
  runs (records self identifier false None None) tr0 (self0, Ok g) →
  assemble_loop repr (fk +:+ "_raw") labels out (records_raw g) = (b', Ok ds) →
  runs (_assemble_downloads repr self identifier fk labels out)
    (tr0 ++ [OBreakpoint a])
    (set_data self0 (<[container_key g := b']> (data self0)),
     match a with
     | Ok _ => Ok ds
     | Raise e => Raise e
     end).
Proof.
  intros H0 Hl. unfold _assemble_downloads.
  eapply runs_bind; [exact H0 |]. simpl. rewrite Hl.
  apply runs_Breakpoint. destruct a; apply runs_Ret.
Qed.

Lemma assemble_loop_length repr fkr labels out (b : list raw_record) :
  length (assemble_loop repr fkr labels out b).1 = length b.
Proof.
  induction b as [| raw b IH]; simpl; [reflexivity |].
  destruct (assemble_record repr fkr labels out raw) as [[d |] | e];
    [| | reflexivity];
    destruct (assemble_loop repr fkr labels out b) as [b' r]; simpl in *;
    f_equal; exact IH.
Qed.

(** After a loop that built the list, the record at each position with an
    attachment holds the rewritten payload, which is also in the list. *)
Lemma assemble_loop_lookup repr fkr labels out (b : list raw_record) b' ds
    (i : nat) (raw : raw_record) (d : file_dict) (f : scalar) :
  assemble_loop repr fkr labels out b = (b', Ok ds) →
  b !! i = Some raw → raw !! fkr = Some (VDict d) → d !! "filename" = Some f →
  ∃ path, path_join out (composed_name repr labels raw f) = Ok path
          ∧ b' !! i
            = Some (<[fkr := VDict (<["filename" := SStr path]> d)]> raw)
          ∧ <["filename" := SStr path]> d ∈ ds.
Proof.
  revert b' ds i. induction b as [| raw0 b IH]; intros b' ds i Hl Hi Hraw Hf;
    [destruct i; discriminate |].
  simpl in Hl. destruct i as [| i]; simpl in Hi.
  - injection Hi as ->.
    rewrite (assemble_record_payload repr fkr labels out raw d f Hraw Hf) in Hl.
    destruct (path_join out (composed_name repr labels raw f)) as [path | e];
      [| discriminate].
    destruct (assemble_loop repr fkr labels out b) as [b1 [ds1 | e]];
      [| discriminate].
    injection Hl as <- <-. exists path. repeat split. apply list_elem_of_here.
  - destruct (assemble_record repr fkr labels out raw0) as [[d0 |] | e];
      [| | discriminate];
      destruct (assemble_loop repr fkr labels out b) as [b1 [ds1 | e]];
      try discriminate; injection Hl as <- <-;
      destruct (IH b1 ds1 i eq_refl Hi Hraw Hf) as (path & Hp & Hb & Hin);
      exists path; repeat split; auto.
    apply list_elem_of_further. exact Hin.
Qed.

(** What the loop makes of one record, and the list it builds: one
    descriptor per record with an attachment, in the order of the batch. *)
Lemma assemble_record_inv repr fkr labels out (raw : raw_record) :
  match assemble_record repr fkr labels out raw with
  | Ok None => has_attachment fkr raw = false
  | Ok (Some d) =>
      has_attachment fkr raw = true
      ∧ ∃ d0 f path,
          raw !! fkr = Some (VDict d0) ∧ d0 !! "filename" = Some f
          ∧ path_join out (composed_name repr labels raw f) = Ok path
          ∧ d = <["filename" := SStr path]> d0
  | Raise e => has_attachment fkr raw = true
  end.
Proof.
  unfold assemble_record, has_attachment, raw_get.
  destruct (raw !! fkr) as [[a | d0] |] eqn:Hraw; simpl;
    [| | reflexivity].
  - destruct (truthy_scalar a); simpl; [| reflexivity].
    destruct a; reflexivity.
  - destruct (bool_decide (d0 = ∅)); simpl; [reflexivity |].
    destruct (d0 !! "filename") as [f |] eqn:Hf; [| reflexivity].
    destruct (path_join out (composed_name repr labels raw f)) as [path | e]
      eqn:Hp; [| reflexivity].
    split; [reflexivity |]. exists d0, f, path. auto.
Qed.

Lemma assemble_loop_downloads repr fkr labels out (b : list raw_record) b' ds :
  assemble_loop repr fkr labels out b = (b', Ok ds) →
  Forall2
    (fun raw d =>
       ∃ d0 f path,
         raw !! fkr = Some (VDict d0) ∧ d0 !! "filename" = Some f
         ∧ path_join out (composed_name repr labels raw f) = Ok path
         ∧ d = <["filename" := SStr path]> d0)
    (List.filter (has_attachment fkr) b) ds.
Proof.
  revert b' ds. induction b as [| raw b IH]; intros b' ds Hl; simpl in Hl.
  - injection Hl as <- <-. constructor.
  - pose proof (assemble_record_inv repr fkr labels out raw) as Hinv.
    destruct (assemble_record repr fkr labels out raw) as [[d |] | e];
      [| | discriminate];
      destruct (assemble_loop repr fkr labels out b) as [b1 [ds1 | e]];
      try discriminate; injection Hl as <- <-; simpl.
    + destruct Hinv as [-> Hd]. constructor; [exact Hd | eauto].
    + rewrite Hinv. eauto.
Qed.

(** *** The assembler and the cache *)

Lemma set_data_id (self : App) : set_data self (data self) = self.
Proof. destruct self; reflexivity. Qed.

(** A call of [records] that returns leaves the returned batch in the
    cache, under the key of the container, and makes at most one transport
    call. *)
Lemma runs_records_inv (self : App) identifier id' c refresh lim fil tr self0 g :
  effective_identifier self identifier = Ok id' →
  _find_container self id' = Ok c →
  runs (records self identifier refresh lim fil) tr (self0, Ok g) →
  let key := py_or (obj c) (view c) in
  g = mkRecords key (records_data g)
  ∧ self0 = set_data self (<[key := records_data g]> (data self))
  ∧ (tr = [] ∧ data self !! key = Some (records_data g)
     ∨ tr = [OApiGet (records_request self c lim fil) (Ok (records_data g))]).
Proof.
  intros Hid Hc H key. rewrite (records_resolved _ _ _ _ _ _ _ Hid Hc) in H.
  fold key in H. cbv zeta in H.
  assert (∀ tr, runs (fetch_records self c key lim fil) tr (self0, Ok g) →
            g = mkRecords key (records_data g)
            ∧ self0 = set_data self (<[key := records_data g]> (data self))
            ∧ tr = [OApiGet (records_request self c lim fil)
                      (Ok (records_data g))]) as Hfetch.
  { intros tr' Hf. apply runs_fetch_records in Hf as (a & -> & Ha).
    destruct a as [b | e]; [| discriminate]. injection Ha as -> ->. auto. }
  destruct (data self !! key) as [[| r b] |] eqn:Hd;
    [| destruct refresh |]; try (destruct (Hfetch _ H) as (? & ? & ?); by auto).
  apply runs_Ret_inv in H as [-> [= -> ->]]. simpl.
  rewrite (insert_id _ _ _ Hd), set_data_id. auto.
Qed.

Lemma length_append_string (a b : string) :
  String.length (a +:+ b) = (String.length a + String.length b)%nat.
Proof. induction a as [| ch a IH]; simpl; [reflexivity | rewrite IH; reflexivity]. Qed.

Lemma posix_join_longer (out s : string) :
  out ≠ "" → starts_with_sep s = false →
  (String.length s < String.length (posix_join out s))%nat.
Proof.
  intros Hout Hs. unfold posix_join. rewrite Hs.
  assert (0 < String.length out)%nat by (destruct out; [congruence | simpl; lia]).
  destruct (negb (truthy_str out) || ends_with_sep out);
    rewrite !length_append_string; simpl; lia.
Qed.

Lemma labelled_name_length repr (raw : raw_record) (l : list string) (f : scalar) :
  (String.length (str_scalar f)
   ≤ String.length (labelled_name repr raw l f))%nat.
Proof.
  induction l as [| k l IH]; simpl; [lia |].
  rewrite !length_append_string. simpl. lia.
Qed.

(** *** [os.path.join] on two arguments *)

Lemma append_cons_string (ch : ascii) (a b : string) :
  String ch a +:+ b = String ch (a +:+ b).
Proof. reflexivity. Qed.

(** [a.endswith("/")] *)
Lemma ends_with_sep_spec (a : string) :
  ends_with_sep a = true ↔ ∃ o, a = o +:+ "/".
Proof.
  induction a as [| ch a IH].
  - split; [discriminate | intros [[| ? ?] [=]]].
  - destruct a as [| ch2 a].
    + simpl. rewrite bool_decide_eq_true. split.
      * intros ->. exists "". reflexivity.
      * intros [[| ch' [| ? ?]] [=]]. congruence.
    + change (ends_with_sep (String ch (String ch2 a)))
        with (ends_with_sep (String ch2 a)).
      rewrite IH. split.
      * intros [o Ho]. exists (String ch o).
        rewrite append_cons_string, Ho. reflexivity.
      * intros [[| ch' o] Ho]; [discriminate |].
        rewrite append_cons_string in Ho. injection Ho as _ Ho. eauto.
Qed.

(** The three ways [os.path.join(a, b)] goes: [b] alone when it starts
    with a separator; [a] and [b] put together when [a] is empty or ends
    with a separator; otherwise [a], a separator, and [b]. *)
Lemma posix_join_cases (a b : string) :
  (starts_with_sep b = true → posix_join a b = b)
  ∧ (starts_with_sep b = false →
     (a = "" → posix_join a b = b)
     ∧ (∀ o, a = o +:+ "/" → posix_join a b = a +:+ b)
     ∧ (a ≠ "" → (∀ o, a ≠ o +:+ "/") → posix_join a b = a +:+ "/" +:+ b)).
Proof.
  unfold posix_join. split; [intros ->; reflexivity |]. intros ->.
  split; [intros ->; reflexivity |]. split.
  - intros o Ho.
    assert (ends_with_sep a = true) as ->
      by (apply ends_with_sep_spec; eauto).
    rewrite orb_true_r. reflexivity.
  - intros Hne Hno.
    assert (ends_with_sep a = false) as ->.
    { destruct (ends_with_sep a) eqn:He; [| reflexivity].
      apply ends_with_sep_spec in He as [o Ho]. destruct (Hno o Ho). }
    destruct a; [congruence | reflexivity].
Qed.

Lemma posix_join_length (a b : string) :
  (String.length b ≤ String.length (posix_join a b))%nat.
Proof.
  unfold posix_join. destruct (starts_with_sep b); [lia |].
  destruct (negb (truthy_str a) || ends_with_sep a);
    rewrite !length_append_string; simpl; lia.
Qed.

(** [os.path.join(a, b)] is [b] itself exactly when [b] starts with a
    separator or [a] is empty. *)
Lemma posix_join_same (a b : string) :
  posix_join a b = b ↔ starts_with_sep b = true ∨ a = "".
Proof.
  split.
  - intros Heq. destruct (starts_with_sep b) eqn:Hs; [auto |].
    destruct (decide (a = "")) as [-> | Hne]; [auto |].
    pose proof (posix_join_longer a b Hne Hs) as Hlt. rewrite Heq in Hlt. lia.
  - intros [Hs | ->]; unfold posix_join.
    + rewrite Hs. reflexivity.
    + destruct (starts_with_sep b); reflexivity.
Qed.

(** The composed name, in the specification's wording. *)
Lemma str_composed_name repr labels (raw : raw_record) (f : scalar) :
  str_scalar (composed_name repr labels raw f)
  = labelled_name repr raw (default [] labels) f.
Proof.
  unfold composed_name. destruct labels as [[| k l] |]; simpl truthy_list;
    cbv iota; simpl default; [reflexivity | | reflexivity].
  apply str_prepend_labels.
Qed.

Lemma labelled_name_longer repr (raw : raw_record) (l : list string) (f : scalar) :
  l ≠ [] →
  (String.length (str_scalar f) < String.length (labelled_name repr raw l f))%nat.
Proof.
  destruct l as [| k l]; [congruence | intros _]. simpl.
  pose proof (labelled_name_length repr raw l f).
  rewrite !length_append_string. simpl. lia.
Qed.

(** The path written is the upstream name itself exactly when there are no
    label keys and [os.path.join] returns its second argument. *)
Lemma rewritten_name_same repr labels (raw : raw_record) (f : scalar)
    (out path : string) :
  path_join out (composed_name repr labels raw f) = Ok path →
  SStr path = f
  ↔ truthy_list labels = false
    ∧ (out = "" ∨ starts_with_sep (str_scalar f) = true).
Proof.
  intros Hp. unfold composed_name in Hp.
  destruct (truthy_list labels) eqn:Hl.
  - split; [| intros [[=] _]]. intros <-. exfalso.
    destruct labels as [[| k l] |]; try discriminate. simpl default in Hp.
    rewrite prepend_labels_nonempty in Hp by discriminate.
    pose proof (labelled_name_longer repr raw (k :: l) (SStr path)
                  ltac:(discriminate)) as H1.
    remember (labelled_name repr raw (k :: l) (SStr path)) as nm eqn:Hnm.
    injection Hp as Hp.
    pose proof (posix_join_length out nm) as H2.
    rewrite Hp in H2. simpl in H1. lia.
  - destruct f as [| | | s]; try discriminate. injection Hp as <-. simpl.
    split.
    + intros [= Heq]. apply posix_join_same in Heq. tauto.
    + intros [_ Hor]. f_equal. apply posix_join_same. tauto.
Qed.

(** What one assembly leaves in the cache and in the list. *)
Lemma assemble_cache_entry repr (self : App) identifier id' c fk labels out
    tr self1 ds1 :
  effective_identifier self identifier = Ok id' →
  _find_container self id' = Ok c →
  runs (_assemble_downloads repr self identifier fk labels out) tr
    (self1, Ok ds1) →
  let key := py_or (obj c) (view c) in
  let fkr := fk +:+ "_raw" in
  ∃ tr0 b b1,
    runs (records self identifier false None None) tr0
      (set_data self (<[key := b]> (data self)), Ok (mkRecords key b))
    ∧ tr = tr0 ++ [OBreakpoint (Ok tt)]
    ∧ self1 = set_data self (<[key := b1]> (data self))
    ∧ length b1 = length b
    ∧ ∀ i raw d f,
        b !! i = Some raw → raw !! fkr = Some (VDict d) →
        d !! "filename" = Some f →
        ∃ path,
          path_join out (composed_name repr labels raw f) = Ok path
          ∧ <["filename" := SStr path]> d ∈ ds1
          ∧ b1 !! i
            = Some (<[fkr := VDict (<["filename" := SStr path]> d)]> raw).
Proof.
  intros Hid Hc Hrun key fkr.
  apply runs_assemble_inv in Hrun as (tr0 & self0 & [g | e] & Hrec & Hm);
    [| destruct Hm as (_ & _ & [=])].
  destruct (runs_records_inv _ _ _ _ _ _ _ _ _ _ Hid Hc Hrec)
    as (Hg & Hself0 & _). fold key in Hg, Hself0.
  cbv zeta in Hm. destruct Hm as (Hself1 & Hm).
  pose proof (assemble_loop_length repr fkr labels out (records_raw g)) as Hlen.
  fold fkr in Hself1, Hm.
  destruct (assemble_loop repr fkr labels out (records_raw g))
    as [b1 [ds | e]] eqn:Hl; simpl in Hm, Hself1, Hlen;
    [| destruct Hm as [_ [=]]].
  destruct Hm as ([[] | e] & -> & [= <-]).
  exists tr0, (records_data g), b1. rewrite <- Hg, <- Hself0.
  split; [exact Hrec |]. split; [reflexivity |]. split.
  { rewrite Hself1, Hself0, Hg. simpl. rewrite insert_insert_eq. reflexivity. }
  split; [exact Hlen |].
  intros i raw d f Hi Hraw Hf.
  destruct (assemble_loop_lookup repr fkr labels out _ _ _ i raw d f Hl Hi
              Hraw Hf) as (path & Hp & Hb & Hin).
  exists path. auto.
Qed.

(** The run of the assembler over a cache entry that is there. *)
Lemma runs_assemble_cached repr (self : App) identifier id' c fk labels out
    r b b' ds a :
  effective_identifier self identifier = Ok id' →
  _find_container self id' = Ok c →
  data self !! py_or (obj c) (view c) = Some (r :: b) →
  assemble_loop repr (fk +:+ "_raw") labels out (r :: b) = (b', Ok ds) →
  runs (_assemble_downloads repr self identifier fk labels out)
    [OBreakpoint a]
    (set_data self (<[py_or (obj c) (view c) := b']> (data self)),
     match a with
     | Ok _ => Ok ds
     | Raise e => Raise e
     end).
Proof.
  intros Hid Hc Hd Hl.
  apply (runs_assemble_intro repr self identifier fk labels out [] self
           (mkRecords (py_or (obj c) (view c)) (r :: b)) b' ds a);
    [| exact Hl].
  rewrite (records_resolved _ _ _ _ _ _ _ Hid Hc). cbv zeta. rewrite Hd.
  apply runs_Ret.
Qed.

(** What a run of the assembler over a cache entry that is there looks
    like, whatever its outcome. *)
Lemma runs_assemble_cached_inv repr (self : App) identifier id' c fk labels out
    r b tr self' res :
  effective_identifier self identifier = Ok id' →
  _find_container self id' = Ok c →
  data self !! py_or (obj c) (view c) = Some (r :: b) →
  runs (_assemble_downloads repr self identifier fk labels out) tr
    (self', res) →
  let lr := assemble_loop repr (fk +:+ "_raw") labels out (r :: b) in
  self' = set_data self (<[py_or (obj c) (view c) := lr.1]> (data self))
  ∧ match lr.2 with
    | Raise e => tr = [] ∧ res = Raise e
    | Ok ds =>
        ∃ a, tr = [OBreakpoint a]
             ∧ res = match a with
                     | Ok _ => Ok ds
                     | Raise e => Raise e
                     end
    end.
Proof.
  intros Hid Hc Hd Hrun lr.
  apply runs_assemble_inv in Hrun as (tr0 & self0 & r0 & Hrec & Hm).
  rewrite (records_resolved _ _ _ _ _ _ _ Hid Hc) in Hrec. cbv zeta in Hrec.
  rewrite Hd in Hrec. apply runs_Ret_inv in Hrec as [-> [= -> ->]].
  cbv zeta in Hm. simpl in Hm. exact Hm.
Qed.

(** C8, as corrected. [_assemble_downloads] writes the destination path,
    [os.path.join(out_dir, name)] with [name] the label values followed by
    the upstream name, into the payload dict of the cached raw record:
    after any assembly that returns, the cache entry of the container
    holds, at the position of each record with an attachment, the record
    with the rewritten payload, the very payload put into the list. That
    path is the upstream name itself exactly when there are no label keys
    and [os.path.join] returns the name alone, [out_dir] being empty or the
    upstream name starting with a separator; in every other case the cache
    no longer holds the upstream name. A second assembly over the same
    cache makes no transport call and composes its path from the rewritten
    name: the labels, when given, go in front of it again and
    [os.path.join] is applied again, so that the second path is the first
    one exactly when the second assembly has no label keys and its
    [out_dir] is empty or the first path starts with a separator. *)
Theorem assemble_rewrites_cache repr (self : App) identifier id' c fk labels
    out tr self1 ds1 :
  effective_identifier self identifier = Ok id' →
  _find_container self id' = Ok c →
  truthy_opt identifier = true ∨ py_or (obj c) (view c) = id' →
  runs (_assemble_downloads repr self identifier fk labels out) tr
    (self1, Ok ds1) →
  let key := py_or (obj c) (view c) in
  let fkr := fk +:+ "_raw" in
  ∃ tr0 b b1,
    runs (records self identifier false None None) tr0
      (set_data self (<[key := b]> (data self)), Ok (mkRecords key b))
    ∧ tr = tr0 ++ [OBreakpoint (Ok tt)]
    ∧ data self1 !! key = Some b1
    ∧ ∀ i raw d f,
        b !! i = Some raw → raw !! fkr = Some (VDict d) →
        d !! "filename" = Some f →
        ∃ path,
          let d1 := <["filename" := SStr path]> d in
          let raw1 := <[fkr := VDict d1]> raw in
          path_join out (composed_name repr labels raw f) = Ok path
          ∧ path = posix_join out (labelled_name repr raw (default [] labels) f)
          ∧ d1 ∈ ds1
          ∧ b1 !! i = Some raw1
          ∧ (SStr path = f
             ↔ truthy_list labels = false
               ∧ (out = "" ∨ starts_with_sep (str_scalar f) = true))
          ∧ ∀ labels2 out2 tr2 self2 ds2,
              runs (_assemble_downloads repr self1 identifier fk labels2 out2)
                tr2 (self2, Ok ds2) →
              ∃ b2 path2,
                path_join out2 (composed_name repr labels2 raw1 (SStr path))
                = Ok path2
                ∧ path2
                  = posix_join out2
                      (labelled_name repr raw1 (default [] labels2)
                         (SStr path))
                ∧ tr2 = [OBreakpoint (Ok tt)]
                ∧ <["filename" := SStr path2]> d1 ∈ ds2
                ∧ data self2 !! key = Some b2
                ∧ b2 !! i
                  = Some (<[fkr := VDict (<["filename" := SStr path2]> d1)]>
                            raw1)
                ∧ (path2 = path
                   ↔ truthy_list labels2 = false
                     ∧ (out2 = "" ∨ starts_with_sep path = true)).
Proof.
  intros Hid Hc Hor Hrun key fkr.
  assert (∀ labels out (raw : raw_record) f path,
            path_join out (composed_name repr labels raw f) = Ok path →
            path = posix_join out
                     (labelled_name repr raw (default [] labels) f)) as Hwhat.
  { intros labels0 out0 raw0 f0 path0 Hp.
    rewrite <- str_composed_name.
    destruct (composed_name repr labels0 raw0 f0); try discriminate.
    injection Hp as <-. reflexivity. }
  destruct (assemble_cache_entry repr self identifier id' c fk labels out tr
              self1 ds1 Hid Hc Hrun)
    as (tr0 & b & b1 & Hrec & Htr & Hself1 & Hlen & Hall).
  fold key in Hrec, Hself1. fold fkr in Hall. fold key in Hall.
  exists tr0, b, b1. split; [exact Hrec |]. split; [exact Htr |].
  split; [rewrite Hself1; simpl; apply lookup_insert_eq |].
  intros i raw d f Hi Hraw Hf.
  destruct (Hall i raw d f Hi Hraw Hf) as (path & Hp & Hin & Hb).
  exists path. cbv zeta. split; [exact Hp |].
  split; [exact (Hwhat _ _ _ _ _ Hp) |]. split; [exact Hin |].
  split; [exact Hb |].
  split; [exact (rewritten_name_same _ _ _ _ _ _ Hp) |].
  intros labels2 out2 tr2 self2 ds2 Hrun2.
  assert (effective_identifier self1 identifier = Ok id') as Hid1.
  { rewrite Hself1. apply effective_identifier_after_fetch; assumption. }
  assert (_find_container self1 id' = Ok c) as Hc1
    by (rewrite Hself1, find_container_set_data; exact Hc).
  assert (data self1 !! key = Some b1) as Hd1
    by (rewrite Hself1; simpl; apply lookup_insert_eq).
  destruct (assemble_cache_entry repr self1 identifier id' c fk labels2 out2
              tr2 self2 ds2 Hid1 Hc1 Hrun2)
    as (tr0' & b' & b2 & Hrec' & Htr' & Hself2 & _ & Hall').
  fold key in Hrec', Hself2. fold fkr in Hall'.
  rewrite (records_resolved _ _ _ _ _ _ _ Hid1 Hc1) in Hrec'.
  fold key in Hrec'. cbv zeta in Hrec'. rewrite Hd1 in Hrec'.
  destruct b1 as [| r1 b1]; [destruct i; discriminate |].
  apply runs_Ret_inv in Hrec' as [-> [= _ ->]].
  destruct (Hall' i _ (<["filename" := SStr path]> d) (SStr path) Hb
              (lookup_insert_eq _ _ _) (lookup_insert_eq _ _ _))
    as (path2 & Hp2 & Hin2 & Hb2).
  exists b2, path2. split; [exact Hp2 |].
  split; [exact (Hwhat _ _ _ _ _ Hp2) |]. split; [exact Htr' |].
  split; [exact Hin2 |].
  split; [rewrite Hself2; simpl; apply lookup_insert_eq |].
  split; [exact Hb2 |].
  pose proof (rewritten_name_same _ _ _ _ _ _ Hp2) as Hsame. simpl in Hsame.
  rewrite <- Hsame. split; [intros ->; reflexivity | intros [= ->]; reflexivity].
Qed.

(** One record with an attachment in the cache, assembled with the label
    key [field_1] into [_downloads]: the cache then holds
    [_downloads/A_doc.pdf] where the upstream name [doc.pdf] was. *)
Lemma assemble_rewrites_cache_example :
  let self := Sample.app {[ Some "object_1" := [Sample.record_ab] ]} in
  let self1 := Sample.app {[ Some "object_1" := [Sample.record_ab1] ]} in
  (effective_identifier self (Some "object_1") = Ok (Some "object_1")
   ∧ _find_container self (Some "object_1") = Ok Sample.customers
   ∧ runs (_assemble_downloads Sample.repr_dict self (Some "object_1")
             "field_17" (Some ["field_1"]) "_downloads")
       [OBreakpoint (Ok tt)] (self1, Ok [Sample.doc1]))
  ∧ ∃ tr0 b b1,
      [OBreakpoint (Ok tt)] = tr0 ++ [OBreakpoint (Ok tt)]
      ∧ runs (records self (Some "object_1") false None None) tr0
          (set_data self (<[Some "object_1" := b]> (data self)),
           Ok (mkRecords (Some "object_1") b))
      ∧ data self1 !! Some "object_1" = Some b1.
Proof.
  intros self self1.
  assert (effective_identifier self (Some "object_1") = Ok (Some "object_1"))
    as H1 by (vm_compute; reflexivity).
  assert (_find_container self (Some "object_1") = Ok Sample.customers)
    as H2 by (vm_compute; reflexivity).
  assert (runs (_assemble_downloads Sample.repr_dict self (Some "object_1")
                  "field_17" (Some ["field_1"]) "_downloads")
            [OBreakpoint (Ok tt)] (self1, Ok [Sample.doc1])) as H3.
  { replace self1
      with (set_data self
              (<[py_or (obj Sample.customers) (view Sample.customers) :=
                   [Sample.record_ab1]]> (data self)))
      by (vm_compute; reflexivity).
    apply (runs_assemble_cached Sample.repr_dict self (Some "object_1")
             (Some "object_1") Sample.customers "field_17" (Some ["field_1"])
             "_downloads" Sample.record_ab [] [Sample.record_ab1]
             [Sample.doc1] (Ok tt) H1 H2);
      vm_compute; reflexivity. }
  split; [auto |].
  destruct (assemble_rewrites_cache Sample.repr_dict self (Some "object_1")
              (Some "object_1") Sample.customers "field_17"
              (Some ["field_1"]) "_downloads" _ self1 _ H1 H2
              (or_introl eq_refl) H3)
    as (tr0 & b & b1 & Hrec & Htr & Hd & _).
  exists tr0, b, b1. auto.
Defined.

(** Two assemblies that leave the name as it is. The upstream name
    [/srv/doc.pdf] starts with a separator: every assembly into
    [_downloads] that returns leaves the cache entry as it was, upstream
    name included. And after a first assembly of [doc.pdf] into [/tmp/dl],
    without label keys, every second assembly returns the same list and
    leaves the cache as the first one left it: nothing is put in front of
    [/tmp/dl/doc.pdf] again. *)
Lemma assemble_keeps_absolute_name :
  let self := Sample.app {[ Some "object_1" := [Sample3.record_srv] ]} in
  let self0 := Sample.app {[ Some "object_1" := [Sample.record_ab] ]} in
  let self1 := Sample.app {[ Some "object_1" := [Sample3.record_tmp] ]} in
  (Sample3.srv !! "filename" = Some (SStr "/srv/doc.pdf")
   ∧ data self !! Some "object_1" = Some [Sample3.record_srv]
   ∧ Sample3.record_srv !! "field_17_raw" = Some (VDict Sample3.srv)
   ∧ runs (_assemble_downloads Sample.repr_dict self (Some "object_1")
             "field_17" None "_downloads")
       [OBreakpoint (Ok tt)] (self, Ok [Sample3.srv])
   ∧ ∀ tr self' ds,
       runs (_assemble_downloads Sample.repr_dict self (Some "object_1")
               "field_17" None "_downloads") tr (self', Ok ds) →
       self' = self ∧ ds = [Sample3.srv])
  ∧ (Sample.doc !! "filename" = Some (SStr "doc.pdf")
     ∧ Sample3.tmp !! "filename" = Some (SStr "/tmp/dl/doc.pdf")
     ∧ runs (_assemble_downloads Sample.repr_dict self0 (Some "object_1")
               "field_17" None "/tmp/dl")
         [OBreakpoint (Ok tt)] (self1, Ok [Sample3.tmp])
     ∧ ∀ tr self' ds,
         runs (_assemble_downloads Sample.repr_dict self1 (Some "object_1")
                 "field_17" None "/tmp/dl") tr (self', Ok ds) →
         self' = self1 ∧ ds = [Sample3.tmp]).
Proof.
  intros self self0 self1.
  assert (∀ cache,
            effective_identifier (Sample.app cache) (Some "object_1")
            = Ok (Some "object_1")) as Hid by reflexivity.
  assert (∀ cache,
            _find_container (Sample.app cache) (Some "object_1")
            = Ok Sample.customers) as Hc by (intros; vm_compute; reflexivity).
  assert (∀ (self : App) raw,
            data self !! Some "object_1" = Some [raw] →
            data self
            !! py_or (obj Sample.customers) (view Sample.customers)
            = Some [raw]) as Hkey by (intros ? ? H; exact H).
  assert (data self !! Some "object_1" = Some [Sample3.record_srv]) as Hd
    by (vm_compute; reflexivity).
  assert (data self0 !! Some "object_1" = Some [Sample.record_ab]) as Hd0
    by (vm_compute; reflexivity).
  assert (data self1 !! Some "object_1" = Some [Sample3.record_tmp]) as Hd1
    by (vm_compute; reflexivity).
  assert (assemble_loop Sample.repr_dict ("field_17" +:+ "_raw") None
            "_downloads" [Sample3.record_srv]
          = ([Sample3.record_srv], Ok [Sample3.srv])) as Hl
    by (vm_compute; reflexivity).
  assert (assemble_loop Sample.repr_dict ("field_17" +:+ "_raw") None
            "/tmp/dl" [Sample.record_ab]
          = ([Sample3.record_tmp], Ok [Sample3.tmp])) as Hl0
    by (vm_compute; reflexivity).
  assert (assemble_loop Sample.repr_dict ("field_17" +:+ "_raw") None
            "/tmp/dl" [Sample3.record_tmp]
          = ([Sample3.record_tmp], Ok [Sample3.tmp])) as Hl1
    by (vm_compute; reflexivity).
  assert (∀ (self : App) raw,
            data self !! Some "object_1" = Some [raw] →
            set_data self
              (<[py_or (obj Sample.customers) (view Sample.customers) :=
                   [raw]]> (data self)) = self) as Hsame.
  { intros s raw H. change (py_or (obj Sample.customers) (view Sample.customers))
      with (Some "object_1").
    rewrite (insert_id _ _ _ H). apply set_data_id. }
  assert (∀ (self : App) out raw d tr self' ds,
            effective_identifier self (Some "object_1") = Ok (Some "object_1") →
            _find_container self (Some "object_1") = Ok Sample.customers →
            data self !! Some "object_1" = Some [raw] →
            assemble_loop Sample.repr_dict ("field_17" +:+ "_raw") None out
              [raw] = ([raw], Ok [d]) →
            runs (_assemble_downloads Sample.repr_dict self (Some "object_1")
                    "field_17" None out) tr (self', Ok ds) →
            self' = self ∧ ds = [d]) as Hall.
  { intros s out raw d tr self' ds H1 H2 H3 H4 Hrun.
    destruct (runs_assemble_cached_inv _ _ _ _ _ _ _ _ _ _ _ _ _ H1 H2
                (Hkey _ _ H3) Hrun) as [Hs Hm].
    cbv zeta in Hs, Hm. rewrite H4 in Hs, Hm. cbn [fst snd] in Hs, Hm.
    rewrite (Hsame _ _ H3) in Hs. split; [exact Hs |].
    destruct Hm as ([[] | e] & _ & [=]). congruence. }
  split; [split; [vm_compute; reflexivity |]; split; [exact Hd |];
          split; [vm_compute; reflexivity |]; split |
          split; [vm_compute; reflexivity |];
          split; [vm_compute; reflexivity |]; split].
  - rewrite <- (Hsame self _ Hd) at 2.
    exact (runs_assemble_cached Sample.repr_dict self (Some "object_1")
             (Some "object_1") Sample.customers "field_17" None "_downloads"
             Sample3.record_srv [] [Sample3.record_srv] [Sample3.srv] (Ok tt)
             (Hid _) (Hc _) (Hkey _ _ Hd) Hl).
  - intros tr self' ds Hrun.
    exact (Hall self "_downloads" _ _ tr self' ds (Hid _) (Hc _) Hd Hl Hrun).
  - replace self1
      with (set_data self0
              (<[py_or (obj Sample.customers) (view Sample.customers) :=
                   [Sample3.record_tmp]]> (data self0)))
      by (vm_compute; reflexivity).
    exact (runs_assemble_cached Sample.repr_dict self0 (Some "object_1")
             (Some "object_1") Sample.customers "field_17" None "/tmp/dl"
             Sample.record_ab [] [Sample3.record_tmp] [Sample3.tmp] (Ok tt)
             (Hid _) (Hc _) (Hkey _ _ Hd0) Hl0).
  - intros tr self' ds Hrun.
    exact (Hall self1 "/tmp/dl" _ _ tr self' ds (Hid _) (Hc _) Hd1 Hl1 Hrun).
Qed.

(** The same cache assembled twice: the second assembly starts from the
    name the first one wrote. *)
Example assemble_twice_compounds :
  let self := Sample.app {[ Some "object_1" := [Sample.record_ab] ]} in
  let self1 := Sample.app {[ Some "object_1" := [Sample.record_ab1] ]} in
  let self2 := Sample.app {[ Some "object_1" := [Sample.record_ab2] ]} in
  runs (_assemble_downloads Sample.repr_dict self (Some "object_1")
          "field_17" (Some ["field_1"]) "_downloads")
    [OBreakpoint (Ok tt)] (self1, Ok [Sample.doc1])
  ∧ runs (_assemble_downloads Sample.repr_dict self1 (Some "object_1")
            "field_17" (Some ["field_1"]) "_downloads")
      [OBreakpoint (Ok tt)] (self2, Ok [Sample.doc2])
  ∧ Sample.doc2 !! "filename"
    = Some (SStr "_downloads/A__downloads/A_doc.pdf").
Proof.
  intros self self1 self2.
  split; [| split; [| vm_compute; reflexivity]].
  - replace self1
      with (set_data self
              (<[py_or (obj Sample.customers) (view Sample.customers) :=
                   [Sample.record_ab1]]> (data self)))
      by (vm_compute; reflexivity).
    apply (runs_assemble_cached Sample.repr_dict self (Some "object_1")
             (Some "object_1") Sample.customers "field_17" (Some ["field_1"])
             "_downloads" Sample.record_ab [] [Sample.record_ab1]
             [Sample.doc1] (Ok tt)); vm_compute; reflexivity.
  - replace self2
      with (set_data self1
              (<[py_or (obj Sample.customers) (view Sample.customers) :=
                   [Sample.record_ab2]]> (data self1)))
      by (vm_compute; reflexivity).
    apply (runs_assemble_cached Sample.repr_dict self1 (Some "object_1")
             (Some "object_1") Sample.customers "field_17" (Some ["field_1"])
             "_downloads" Sample.record_ab1 [] [Sample.record_ab2]
             [Sample.doc2] (Ok tt)); vm_compute; reflexivity.
Qed.

(** ** The call of the debugger *)

Lemma has_breakpoint_app tr1 tr2 :
  has_breakpoint (tr1 ++ tr2) = has_breakpoint tr1 || has_breakpoint tr2.
Proof. apply existsb_app. Qed.

Lemma http_calls_app tr1 tr2 : http_calls (tr1 ++ tr2) = http_calls tr1 ++ http_calls tr2.
Proof. apply omap_app. Qed.

Lemma writes_app tr1 tr2 : writes (tr1 ++ tr2) = writes tr1 ++ writes tr2.
Proof. apply omap_app. Qed.

(** [records] only talks to the Knack API. *)
Lemma records_trace (self : App) identifier refresh lim fil tr res :
  runs (records self identifier refresh lim fil) tr res →
  http_calls tr = [] ∧ writes tr = [] ∧ has_breakpoint tr = false.
Proof.
  unfold records.
  destruct (effective_identifier self identifier) as [id' | e];
    [| intros H; apply runs_Ret_inv in H as [-> _]; auto].
  destruct (_find_container self id') as [c | e];
    [| intros H; apply runs_Ret_inv in H as [-> _]; auto].
  cbv zeta.
  destruct (data self !! py_or (obj c) (view c)) as [[| r b] |];
    [| destruct refresh |]; intros H;
    try (apply runs_fetch_records in H as (a & -> & _); by auto).
  apply runs_Ret_inv in H as [-> _]. auto.
Qed.

(** The executor only fetches and writes. *)
Lemma download_loop_trace hb ds c tr r :
  runs (download_loop hb ds c) tr r →
  api_calls tr = [] ∧ has_breakpoint tr = false.
Proof.
  revert c tr. induction ds as [| d ds IH]; intros c tr H.
  - apply runs_Ret_inv in H as [-> _]. auto.
  - apply runs_download_loop_cons in H
      as [(e & Ht & _) | (t1 & t2 & Ht & H & ->)].
    + inversion Ht; subst; auto.
    + destruct (IH _ _ H) as [Ha Hb].
      rewrite api_calls_app, has_breakpoint_app, Ha, Hb.
      inversion Ht; subst; auto.
Qed.

Lemma runs_download_body_inv repr hb (self : App) identifier field out labels
    tr self' n :
  runs (download_body repr hb self identifier field out labels) tr
    (self', Ok n) →
  ∃ c fd ta ds td,
    _find_container self identifier = Ok c
    ∧ head (_find_field_def self field identifier) = Some fd
    ∧ runs (_assemble_downloads repr self (obj c) (fd_key fd) labels out) ta
        (self', Ok ds)
    ∧ runs (_download_files hb ds) td (Ok n)
    ∧ tr = ta ++ td.
Proof.
  unfold download_body.
  destruct (_find_container self identifier) as [c | e];
    [| intros H; apply runs_Ret_inv in H as [_ [=]]].
  destruct (_find_field_def self field identifier) as [| fd fds];
    [intros H; apply runs_Ret_inv in H as [_ [=]] |].
  intros H.
  apply runs_bind_inv in H as (ta & [self1 [ds | e]] & t2 & Ha & H & ->);
    [| apply runs_Ret_inv in H as [_ [=]]].
  apply runs_bind_inv in H as (td & r & t3 & Hd & H & ->).
  apply runs_Ret_inv in H as [-> [= -> ->]].
  exists c, fd, ta, ds, td. rewrite app_nil_r. auto.
Qed.

Lemma runs_download_inv repr hb (self : App) identifier field out labels
    tr res :
  runs (download repr hb self identifier field out labels) tr res →
  ∃ pre tb,
    tr = pre ++ tb
    ∧ http_calls pre = [] ∧ writes pre = [] ∧ api_calls pre = []
    ∧ has_breakpoint pre = false
    ∧ (runs (download_body repr hb self identifier field out labels) tb res
       ∨ tb = [] ∧ ∃ e, res = (self, Raise e)).
Proof.
  unfold download. intros H.
  apply runs_PathExists_inv in H as ([|] & t1 & -> & H).
  - exists [OPathExists out true], t1. auto 10.
  - apply runs_MakeDirs_inv in H as ([[] | e] & t2 & -> & H).
    + exists [OPathExists out false; OMakeDirs out (Ok ())], t2. auto 10.
    + apply runs_Ret_inv in H as [-> ->].
      exists [OPathExists out false; OMakeDirs out (Raise e)], [].
      repeat split; auto. right. eauto.
Qed.

(** C10. The assembler never returns its list without having called
    [breakpoint()]: in every run that returns the list, the call of the
    debugger is the last call made, after [records] and the loop, and it
    was answered; whenever [records] returns and the loop builds the list,
    the run goes on with that call and its result is the debugger's to
    decide. Hence every run of [download] that returns a count has passed
    the debugger once, after the last transport call and before the first
    transfer. *)
Theorem breakpoint_before_return repr hb (self : App)
    (identifier : option string) (fk field out : string)
    (labels : option (list string)) :
  (∀ tr self' ds,
     runs (_assemble_downloads repr self identifier fk labels out) tr
       (self', Ok ds) →
     ∃ tr0, tr = tr0 ++ [OBreakpoint (Ok tt)] ∧ has_breakpoint tr0 = false)
  ∧ (∀ tr0 self0 g b' ds a,
       runs (records self identifier false None None) tr0 (self0, Ok g) →
       assemble_loop repr (fk +:+ "_raw") labels out (records_raw g)
       = (b', Ok ds) →
       runs (_assemble_downloads repr self identifier fk labels out)
         (tr0 ++ [OBreakpoint a])
         (set_data self0 (<[container_key g := b']> (data self0)),
          match a with
          | Ok _ => Ok ds
          | Raise e => Raise e
          end))
  ∧ (∀ tr self' n,
       runs (download repr hb self identifier field out labels) tr
         (self', Ok n) →
       ∃ tr1 tr2,
         tr = tr1 ++ OBreakpoint (Ok tt) :: tr2
         ∧ has_breakpoint tr1 = false
         ∧ http_calls tr1 = [] ∧ writes tr1 = []
         ∧ api_calls tr2 = [] ∧ has_breakpoint tr2 = false).
Proof.
  assert (∀ (self : App) identifier fk tr self' ds,
            runs (_assemble_downloads repr self identifier fk labels out) tr
              (self', Ok ds) →
            ∃ tr0, tr = tr0 ++ [OBreakpoint (Ok tt)]
                   ∧ http_calls tr0 = [] ∧ writes tr0 = []
                   ∧ has_breakpoint tr0 = false) as Hasm.
  { intros self0 identifier0 fk0 tr self' ds H.
    apply runs_assemble_inv in H as (tr0 & self1 & [g | e] & Hrec & Hm);
      [| destruct Hm as (_ & _ & [=])].
    cbv zeta in Hm. destruct Hm as (_ & Hm).
    destruct (assemble_loop repr (fk0 +:+ "_raw") labels out (records_raw g)).2
      as [ds' | e]; [| destruct Hm as [_ [=]]].
    destruct Hm as ([[] | e] & -> & [=]).
    exists tr0. split; [reflexivity |]. exact (records_trace _ _ _ _ _ _ _ Hrec). }
  split; [| split].
  - intros tr self' ds H.
    destruct (Hasm _ _ _ _ _ _ H) as (tr0 & -> & _ & _ & Hb). eauto.
  - intros tr0 self0 g b' ds a Hrec Hl.
    exact (runs_assemble_intro repr self identifier fk labels out tr0 self0 g
             b' ds a Hrec Hl).
  - intros tr self' n H.
    apply runs_download_inv in H
      as (pre & tb & -> & Hp1 & Hp2 & Hp3 & Hp4 & [H | (_ & e & [=])]).
    apply runs_download_body_inv in H
      as (c & fd & ta & ds & td & _ & _ & Ha & Hd & ->).
    destruct (Hasm _ _ _ _ _ _ Ha) as (tr0 & -> & Hh & Hw & Hb).
    destruct (download_loop_trace hb ds 0 td (Ok n) Hd) as [Hda Hdb].
    exists (pre ++ tr0), td.
    rewrite has_breakpoint_app, http_calls_app, writes_app, Hp1, Hp2, Hp4,
      Hh, Hw, Hb.
    repeat split; auto. rewrite <- !app_assoc. reflexivity.
Qed.

(** A download of one attachment that returns: the debugger is passed
    between the end of the assembly and the transfer. *)
Example download_passes_debugger :
  let self := Sample.app {[ Some "object_1" := [Sample.record_ab] ]} in
  let self1 := Sample.app {[ Some "object_1" := [Sample.record_ab0] ]} in
  runs (download Sample.repr_dict Sample.humanize_bytes self
          (Some "object_1") "field_17" "_downloads" None)
    [OPathExists "_downloads" true;
     OBreakpoint (Ok tt);
     OHttpGet (SStr "https://api.knack.com/v1/download/asset/1/doc.pdf")
       (Ok Sample.ok_doc);
     OOpenWrite (SStr "_downloads/doc.pdf") "%PDF" (Ok tt)]
    (self1, Ok 1%nat).
Proof.
  intros self self1.
  assert (effective_identifier self (Some "object_1") = Ok (Some "object_1"))
    as H1 by (vm_compute; reflexivity).
  assert (_find_container self (Some "object_1") = Ok Sample.customers)
    as H2 by (vm_compute; reflexivity).
  assert (_find_field_def self "field_17" (Some "object_1")
          = [Sample.attachment]) as H3 by (vm_compute; reflexivity).
  unfold download. apply (runs_PathExists _ _ true).
  unfold download_body. rewrite H2, H3.
  apply (runs_bind _ _ [OBreakpoint (Ok tt)] (self1, Ok [Sample.doc0])).
  - replace self1
      with (set_data self
              (<[py_or (obj Sample.customers) (view Sample.customers) :=
                   [Sample.record_ab0]]> (data self)))
      by (vm_compute; reflexivity).
    apply (runs_assemble_cached Sample.repr_dict self (Some "object_1")
             (Some "object_1") Sample.customers "field_17" None "_downloads"
             Sample.record_ab [] [Sample.record_ab0] [Sample.doc0] (Ok tt)
             H1 H2); vm_compute; reflexivity.
  - cbv beta iota.
    apply (runs_bind _ _
             [OHttpGet
                (SStr "https://api.knack.com/v1/download/asset/1/doc.pdf")
                (Ok Sample.ok_doc);
              OOpenWrite (SStr "_downloads/doc.pdf") "%PDF" (Ok tt)]
             (Ok 1%nat) []); [| apply runs_Ret].
    unfold _download_files, download_loop.
    replace (descriptor_fields Sample.humanize_bytes Sample.doc0)
      with (Ok (SStr "_downloads/doc.pdf",
                SStr "https://api.knack.com/v1/download/asset/1/doc.pdf"))
      by (vm_compute; reflexivity).
    apply runs_HttpGet. cbn. apply runs_OpenWrite. apply runs_Ret.
Qed.

(** ** [download]: which records are fetched *)







(** * Further properties *)

(** ** [records]: what a call leaves behind *)

Lemma runs_records_cases (self : App) identifier refresh lim fil tr res :
  runs (records self identifier refresh lim fil) tr res →
  (tr = [] ∧ ∃ e, res = (self, Raise e))
  ∨ ∃ id' c,
      effective_identifier self identifier = Ok id'
      ∧ _find_container self id' = Ok c.
Proof.
  unfold records.
  destruct (effective_identifier self identifier) as [id' | e];
    [| intros H; apply runs_Ret_inv in H as [-> ->]; eauto].
  destruct (_find_container self id') as [c | e] eqn:Hc;
    [| intros H; apply runs_Ret_inv in H as [-> ->]; eauto].
  intros _. right. exists id', c. auto.
Qed.

(** X1. Every call of [records] that returns leaves the returned batch in
    the cache under the key of the generator, leaves every other cache
    entry, the registry and the field definitions as they were, and has
    made no call but at most one transport call, whose answer is then the
    returned batch. *)
Theorem records_keeps_cache_coherent (self : App) identifier refresh lim fil
    tr self' g :
  runs (records self identifier refresh lim fil) tr (self', Ok g) →
  data self' !! container_key g = Some (records_data g)
  ∧ (∀ k, k ≠ container_key g → data self' !! k = data self !! k)
  ∧ (tr = [] ∨ ∃ rq, tr = [OApiGet rq (Ok (records_data g))])
  ∧ containers self' = containers self
  ∧ field_defs self' = field_defs self.
Proof.
  intros H.
  destruct (runs_records_cases _ _ _ _ _ _ _ H)
    as [(_ & e & [=]) | (id' & c & Hid & Hc)].
  destruct (runs_records_inv _ _ _ _ _ _ _ _ _ _ Hid Hc H) as (Hg & -> & Htr).
  rewrite Hg. simpl. split; [apply lookup_insert_eq |].
  split; [intros k Hk; apply lookup_insert_ne; congruence |].
  split; [| auto]. destruct Htr as [[-> _] | ->]; eauto.
Qed.

Lemma records_keeps_cache_coherent_example :
  let self := Sample.app {[ Some "object_2" := [] ]} in
  let rq := records_request self Sample.customers None None in
  let self' :=
    set_data self (<[Some "object_1" := [Sample.record_ab]]> (data self)) in
  runs (records self (Some "Customers") false None None)
    [OApiGet rq (Ok [Sample.record_ab])]
    (self', Ok (mkRecords (Some "object_1") [Sample.record_ab]))
  ∧ data self' !! Some "object_1" = Some [Sample.record_ab]
  ∧ (∀ k, k ≠ Some "object_1" → data self' !! k = data self !! k).
Proof.
  intros self rq self'.
  assert (runs (records self (Some "Customers") false None None)
            [OApiGet rq (Ok [Sample.record_ab])]
            (self', Ok (mkRecords (Some "object_1") [Sample.record_ab]))) as H.
  { rewrite (records_resolved self (Some "Customers") (Some "Customers")
               Sample.customers false None None)
      by (vm_compute; reflexivity).
    cbv zeta.
    change (py_or (obj Sample.customers) (view Sample.customers))
      with (Some "object_1").
    replace (data self !! Some "object_1") with (@None batch)
      by (vm_compute; reflexivity).
    apply (runs_ApiGet _ _ (Ok [Sample.record_ab])). apply runs_Ret. }
  split; [exact H |].
  destruct (records_keeps_cache_coherent _ _ _ _ _ _ _ _ H)
    as (H1 & H2 & _). split; [exact H1 | exact H2].
Defined.

(** X2. A call of [records] that raises leaves the [App] as it was: no
    entry is created or replaced. It has made no call, or the one transport
    call that raised the exception. *)
Theorem records_failure_keeps_state (self : App) identifier refresh lim fil
    tr self' e :
  runs (records self identifier refresh lim fil) tr (self', Raise e) →
  self' = self ∧ (tr = [] ∨ ∃ rq, tr = [OApiGet rq (Raise e)]).
Proof.
  intros H.
  destruct (runs_records_cases _ _ _ _ _ _ _ H)
    as [(-> & e' & [= -> _]) | (id' & c & Hid & Hc)]; [auto |].
  rewrite (records_resolved _ _ _ _ _ _ _ Hid Hc) in H. cbv zeta in H.
  assert (∀ key, runs (fetch_records self c key lim fil) tr (self', Raise e) →
                 self' = self ∧ ∃ rq, tr = [OApiGet rq (Raise e)]) as Hfetch.
  { intros key Hf. apply runs_fetch_records in Hf as ([b | e'] & -> & Ha);
      [discriminate |]. injection Ha as -> ->. eauto. }
  destruct (data self !! py_or (obj c) (view c)) as [[| r b] |];
    [| destruct refresh |];
    try (destruct (Hfetch _ H) as [-> ?]; by auto).
  apply runs_Ret_inv in H as [_ [=]].
Qed.

Lemma records_failure_keeps_state_example :
  let self := Sample.app {[ Some "object_1" := [Sample.record_ab] ]} in
  let rq := records_request self Sample.customers None None in
  runs (records self (Some "object_1") true None None)
    [OApiGet rq (Raise (ExternalError "timeout"))]
    (self, Raise (ExternalError "timeout"))
  ∧ self = self
  ∧ ([OApiGet rq (Raise (ExternalError "timeout"))] = []
     ∨ ∃ rq', [OApiGet rq (Raise (ExternalError "timeout"))]
              = [OApiGet rq' (Raise (ExternalError "timeout"))]).
Proof.
  intros self rq.
  assert (runs (records self (Some "object_1") true None None)
            [OApiGet rq (Raise (ExternalError "timeout"))]
            (self, Raise (ExternalError "timeout"))) as H.
  { rewrite (records_resolved self (Some "object_1") (Some "object_1")
               Sample.customers true None None)
      by (vm_compute; reflexivity).
    cbv zeta.
    change (py_or (obj Sample.customers) (view Sample.customers))
      with (Some "object_1").
    replace (data self !! Some "object_1") with (Some [Sample.record_ab])
      by (vm_compute; reflexivity).
    apply (runs_ApiGet _ _ (Raise (ExternalError "timeout"))). apply runs_Ret. }
  split; [exact H |].
  exact (records_failure_keeps_state _ _ _ _ _ _ _ _ H).
Defined.

(** X3. With [refresh = True], a call of [records] whose identifier
    resolves to a container makes exactly one transport call, whatever the
    cache holds: the request names the container's object, scene and view
    keys and carries the filters of the call; an answered batch replaces
    the entry of the container and is returned, an exception is passed on. *)
Theorem records_refresh_fetches_once (self : App) identifier id' c lim fil
    tr res :
  effective_identifier self identifier = Ok id' →
  _find_container self id' = Ok c →
  runs (records self identifier true lim fil) tr res →
  let key := py_or (obj c) (view c) in
  ∃ a rq,
    tr = [OApiGet rq a]
    ∧ rq_obj rq = obj c ∧ rq_scene rq = scene c ∧ rq_view rq = view c
    ∧ rq_filters rq = fil
    ∧ res = match a with
            | Raise e => (self, Raise e)
            | Ok b => (set_data self (<[key := b]> (data self)),
                       Ok (mkRecords key b))
            end.
Proof.
  intros Hid Hc H key.
  rewrite (records_resolved _ _ _ _ _ _ _ Hid Hc) in H. cbv zeta in H.
  fold key in H.
  assert (runs (fetch_records self c key lim fil) tr res) as Hf
    by (destruct (data self !! key) as [[| r b] |]; exact H).
  apply runs_fetch_records in Hf as (a & -> & ->).
  exists a, (records_request self c lim fil). repeat split.
Qed.

Lemma records_refresh_fetches_once_example :
  let self := Sample.app {[ Some "object_1" := [Sample.record_ab] ]} in
  let rq := records_request self Sample.customers None None in
  (effective_identifier self (Some "object_1") = Ok (Some "object_1")
   ∧ _find_container self (Some "object_1") = Ok Sample.customers
   ∧ runs (records self (Some "object_1") true None None)
       [OApiGet rq (Ok [])]
       (set_data self (<[Some "object_1" := []]> (data self)),
        Ok (mkRecords (Some "object_1") [])))
  ∧ ∃ a rq', [OApiGet rq (Ok [])] = [OApiGet rq' a]
             ∧ rq_obj rq' = Some "object_1".
Proof.
  intros self rq.
  assert (effective_identifier self (Some "object_1") = Ok (Some "object_1"))
    as H1 by (vm_compute; reflexivity).
  assert (_find_container self (Some "object_1") = Ok Sample.customers)
    as H2 by (vm_compute; reflexivity).
  assert (runs (records self (Some "object_1") true None None)
            [OApiGet rq (Ok [])]
            (set_data self (<[Some "object_1" := []]> (data self)),
             Ok (mkRecords (Some "object_1") []))) as H.
  { rewrite (records_resolved _ _ _ _ _ _ _ H1 H2). cbv zeta.
    change (py_or (obj Sample.customers) (view Sample.customers))
      with (Some "object_1").
    replace (data self !! Some "object_1") with (Some [Sample.record_ab])
      by (vm_compute; reflexivity).
    apply (runs_ApiGet _ _ (Ok [])). apply runs_Ret. }
  split; [auto |].
  destruct (records_refresh_fetches_once _ _ _ _ _ _ _ _ H1 H2 H)
    as (a & rq' & Htr & Hobj & _).
  exists a, rq'. auto.
Defined.

(** X19. An empty batch in the cache is never served: when the container
    has no entry or its entry is the empty batch, every call of [records],
    with or without [refresh], makes exactly one transport call. A
    container without records is queried again on each call. *)
Theorem records_empty_entry_refetched (self : App) identifier id' c refresh
    lim fil tr res :
  effective_identifier self identifier = Ok id' →
  _find_container self id' = Ok c →
  data self !! py_or (obj c) (view c) = None
  ∨ data self !! py_or (obj c) (view c) = Some [] →
  runs (records self identifier refresh lim fil) tr res →
  ∃ a, tr = [OApiGet (records_request self c lim fil) a]
       ∧ api_calls tr = [records_request self c lim fil].
Proof.
  intros Hid Hc Hd H.
  rewrite (records_resolved _ _ _ _ _ _ _ Hid Hc) in H. cbv zeta in H.
  assert (runs (fetch_records self c (py_or (obj c) (view c)) lim fil) tr res)
    as Hf by (destruct Hd as [Hd | Hd]; rewrite Hd in H; exact H).
  apply runs_fetch_records in Hf as (a & -> & _). eauto.
Qed.

Lemma records_empty_entry_refetched_example :
  let self := Sample.app {[ Some "object_1" := [] ]} in
  let rq := records_request self Sample.customers None None in
  (effective_identifier self (Some "object_1") = Ok (Some "object_1")
   ∧ _find_container self (Some "object_1") = Ok Sample.customers
   ∧ data self !! Some "object_1" = Some []
   ∧ runs (records self (Some "object_1") false None None)
       [OApiGet rq (Ok [])] (self, Ok (mkRecords (Some "object_1") [])))
  ∧ ∃ a, [OApiGet rq (Ok [])] = [OApiGet rq a]
         ∧ api_calls [OApiGet rq (Ok [])] = [rq].
Proof.
  intros self rq.
  assert (effective_identifier self (Some "object_1") = Ok (Some "object_1"))
    as H1 by (vm_compute; reflexivity).
  assert (_find_container self (Some "object_1") = Ok Sample.customers)
    as H2 by (vm_compute; reflexivity).
  assert (data self !! Some "object_1" = Some []) as H3
    by (vm_compute; reflexivity).
  assert (runs (records self (Some "object_1") false None None)
            [OApiGet rq (Ok [])] (self, Ok (mkRecords (Some "object_1") [])))
    as H.
  { rewrite (records_resolved _ _ _ _ _ _ _ H1 H2). cbv zeta.
    change (py_or (obj Sample.customers) (view Sample.customers))
      with (Some "object_1").
    rewrite H3. apply (runs_ApiGet _ _ (Ok [])).
    replace self
      with (set_data self (<[Some "object_1" := []]> (data self))) at 2
      by (vm_compute; reflexivity).
    apply runs_Ret. }
  split; [auto |].
  exact (records_empty_entry_refetched self (Some "object_1")
           (Some "object_1") Sample.customers false None None _ _ H1 H2
           (or_intror H3) H).
Defined.

(** ** [_find_container]: edge cases *)

Lemma container_matches_None (c : Container) :
  container_matches None c = bool_decide (keyless c).
Proof.
  unfold container_matches, keyless.
  apply eq_true_iff_eq.
  rewrite !orb_true_iff, !bool_decide_eq_true.
  intuition congruence.
Qed.

(** X4. An identifier of [None] is not rejected by [_find_container]: it
    names every container whose object key or view key is unset. The
    container is returned when it is the only such one; two or more give
    the ambiguity error, whose text then reads [name None]; none gives the
    unknown-container error. *)
Theorem find_container_None (self : App) :
  let keyless_ones :=
    List.filter (fun c => bool_decide (keyless c)) (containers self) in
  (∀ c, _find_container self None = Ok c ↔ keyless_ones = [c])
  ∧ (_find_container self None
     = Raise (ValueError
                "Multiple containers use name None. Try using a view or object key.")
     ↔ (2 ≤ length keyless_ones)%nat)
  ∧ (_find_container self None = Raise (UnknownContainer None)
     ↔ keyless_ones = []).
Proof.
  intros keyless_ones. unfold _find_container.
  rewrite (List.filter_ext _ _ container_matches_None). fold keyless_ones.
  destruct keyless_ones as [| c1 [| c2 l]]; simpl.
  - repeat split; intros; try discriminate; try lia; auto.
  - repeat split; intros H; try discriminate; try congruence;
      try (simpl in H; lia).
  - repeat split; intros H; try discriminate; try (simpl; lia); auto.
Qed.

Lemma filter_Permutation_bool {A} (f : A -> bool) (l l' : list A) :
  l ≡ₚ l' → List.filter f l ≡ₚ List.filter f l'.
Proof.
  induction 1 as [| x l l' _ IH | x y l | l1 l2 l3 _ IH1 _ IH2]; simpl.
  - reflexivity.
  - destruct (f x); [constructor |]; exact IH.
  - destruct (f x), (f y); try reflexivity. constructor.
  - etransitivity; eassumption.
Qed.

(** X5. The result of [_find_container] does not depend on the order of
    the registry: two registries holding the same containers in any order
    resolve every identifier alike. *)
Theorem find_container_order_independent (self self' : App)
    (identifier : option string) :
  containers self ≡ₚ containers self' →
  _find_container self identifier = _find_container self' identifier.
Proof.
  intros Hp. unfold _find_container.
  pose proof (filter_Permutation_bool (container_matches identifier) _ _ Hp)
    as Hf.
  pose proof (Permutation_length Hf) as Hlen.
  destruct (List.filter (container_matches identifier) (containers self))
    as [| c1 [| c2 l]].
  - apply Permutation_nil in Hf. rewrite Hf. reflexivity.
  - apply Permutation_length_1_inv in Hf. rewrite Hf. reflexivity.
  - rewrite <- Hlen. simpl. reflexivity.
Qed.

Lemma find_container_order_independent_example :
  let self := Sample.app ∅ in
  let self' := mkApp (app_id self) (api_key self) (timeout self)
                 (max_attempts self) [Sample.orders; Sample.customers]
                 (field_defs self) ∅ in
  containers self ≡ₚ containers self'
  ∧ _find_container self (Some "Orders") = _find_container self' (Some "Orders").
Proof.
  intros self self'.
  assert (containers self ≡ₚ containers self') as Hp by apply perm_swap.
  split; [exact Hp |].
  exact (find_container_order_independent self self' (Some "Orders") Hp).
Defined.

(** ** [_find_field_def]: letter case *)

Lemma lower_ascii_idemp (c : ascii) : lower_ascii (lower_ascii c) = lower_ascii c.
Proof.
  destruct c as [[] [] [] [] [] [] [] []]; vm_compute; reflexivity.
Qed.

Lemma lower_idemp (s : string) : lower (lower s) = lower s.
Proof.
  induction s as [| c s IH]; simpl; [reflexivity |].
  rewrite lower_ascii_idemp, IH. reflexivity.
Qed.

(** X6. [_find_field_def] lower-cases the requested identifier and compares
    it with the field key as it is. So a field of the container is found by
    any spelling of its name, and by any spelling of its key when the key
    is lower-case; a field whose key has an upper-case letter is not found
    by any spelling of that key, unless the spelling is also one of its
    name. *)
Theorem find_field_def_letter_case (self : App) (fd : FieldDef)
    (identifier : string) :
  In fd (field_defs self) →
  (lower identifier = lower (fd_name fd) →
   In fd (_find_field_def self identifier (Some (fd_obj fd))))
  ∧ (lower identifier = lower (fd_key fd) →
     fd_key fd = lower (fd_key fd) →
     In fd (_find_field_def self identifier (Some (fd_obj fd))))
  ∧ (lower identifier = lower (fd_key fd) →
     fd_key fd ≠ lower (fd_key fd) →
     lower identifier ≠ lower (fd_name fd) →
     ¬ In fd (_find_field_def self identifier (Some (fd_obj fd)))).
Proof.
  intros Hin. unfold _find_field_def, field_def_matches.
  rewrite !filter_In, !andb_true_iff, !orb_true_iff, !bool_decide_eq_true.
  split; [| split].
  - intros Hn. auto.
  - intros Hk Hl. split; [exact Hin |]. split; [| reflexivity].
    right. congruence.
  - intros Hk Hup Hn (_ & [Hm | Hm] & _); [contradiction |].
    apply Hup. rewrite <- Hm at 2. rewrite lower_idemp. symmetry. exact Hm.
Qed.

Lemma find_field_def_letter_case_example :
  In Sample.attachment (field_defs (Sample.app ∅))
  ∧ In Sample.attachment
      (_find_field_def (Sample.app ∅) "FIELD_17" (Some "object_1"))
  ∧ In Sample.attachment
      (_find_field_def (Sample.app ∅) "ATTACHment" (Some "object_1")).
Proof.
  assert (In Sample.attachment (field_defs (Sample.app ∅))) as Hin
    by (left; reflexivity).
  split; [exact Hin |]. split.
  - exact (proj1 (proj2 (find_field_def_letter_case (Sample.app ∅)
                           Sample.attachment "FIELD_17" Hin))
             eq_refl eq_refl).
  - exact (proj1 (find_field_def_letter_case (Sample.app ∅)
                    Sample.attachment "ATTACHment" Hin) eq_refl).
Defined.

(** ** The assembler: which records, which failures *)

(** X7. The failure modes of the assembler on one record. A record without
    attachment is skipped. A payload that is a non-empty string, a number
    or [True] raises a [TypeError]; a non-empty payload dict without
    [filename] entry raises [KeyError('filename')]; without label keys a
    file name that is not a string raises a [TypeError]. In every other
    case the record yields its payload with the file name rewritten. *)
Theorem assemble_record_failure_modes repr fkr labels out (raw : raw_record) :
  (has_attachment fkr raw = false →
   assemble_record repr fkr labels out raw = Ok None)
  ∧ (∀ a, raw_get raw fkr = VScalar a → truthy_scalar a = true →
          ∃ msg, assemble_record repr fkr labels out raw
                 = Raise (TypeError msg))
  ∧ (∀ d, raw_get raw fkr = VDict d → d ≠ ∅ → d !! "filename" = None →
          assemble_record repr fkr labels out raw
          = Raise (KeyError "filename"))
  ∧ (∀ d f, raw_get raw fkr = VDict d → d !! "filename" = Some f →
            truthy_list labels = false → (∀ s, f ≠ SStr s) →
            ∃ msg, assemble_record repr fkr labels out raw
                   = Raise (TypeError msg))
  ∧ (∀ d f, raw_get raw fkr = VDict d → d !! "filename" = Some f →
            truthy_list labels = true ∨ (∃ s, f = SStr s) →
            ∃ path, assemble_record repr fkr labels out raw
                    = Ok (Some (<["filename" := SStr path]> d))).
Proof.
  unfold assemble_record, has_attachment. repeat split.
  - intros ->. reflexivity.
  - intros a -> Ha. simpl. rewrite Ha. simpl. destruct a; eauto.
  - intros d -> Hne Hf. simpl. rewrite bool_decide_eq_false_2 by exact Hne.
    simpl. rewrite Hf. reflexivity.
  - intros d f -> Hf Hl Hs.
    assert (d ≠ ∅) as Hne
      by (intros ->; rewrite lookup_empty in Hf; discriminate).
    simpl. rewrite bool_decide_eq_false_2 by exact Hne. simpl. rewrite Hf.
    unfold composed_name. rewrite Hl.
    destruct f as [| | | s]; simpl; eauto. destruct (Hs s eq_refl).
  - intros d f -> Hf Hor.
    assert (d ≠ ∅) as Hne
      by (intros ->; rewrite lookup_empty in Hf; discriminate).
    simpl. rewrite bool_decide_eq_false_2 by exact Hne. simpl. rewrite Hf.
    unfold composed_name. destruct (truthy_list labels) eqn:Hl.
    + destruct labels as [[| k l] |]; try discriminate. simpl default.
      rewrite prepend_labels_nonempty by discriminate. simpl. eauto.
    + destruct Hor as [? | [s ->]]; [discriminate |]. simpl. eauto.
Qed.

Lemma assemble_loop_prefix repr fkr labels out (b1 : list raw_record) raw b2 e :
  (∀ e', (assemble_loop repr fkr labels out b1).2 ≠ Raise e') →
  assemble_record repr fkr labels out raw = Raise e →
  assemble_loop repr fkr labels out (b1 ++ raw :: b2)
  = ((assemble_loop repr fkr labels out b1).1 ++ raw :: b2, Raise e).
Proof.
  intros Hok Hraw. induction b1 as [| r1 b1 IH]; simpl.
  - rewrite Hraw. reflexivity.
  - simpl in Hok.
    destruct (assemble_record repr fkr labels out r1) as [[d |] | e1].
    + destruct (assemble_loop repr fkr labels out b1) as [b1' [ds | e1]]
        eqn:Hl; simpl in *.
      * rewrite IH by (intros e'; discriminate). reflexivity.
      * destruct (Hok e1 eq_refl).
    + destruct (assemble_loop repr fkr labels out b1) as [b1' [ds | e1]]
        eqn:Hl; simpl in *.
      * rewrite IH by (intros e'; discriminate). reflexivity.
      * destruct (Hok e1 eq_refl).
    + destruct (Hok e1 eq_refl).
Qed.

(** X8. When the loop of the assembler meets a record on which it raises,
    after records on which it did not, [_assemble_downloads] raises that
    exception without calling the debugger, and the cache entry keeps the
    records before it as rewritten so far, the failing record and the
    records after it as they were: the assembly is not undone. *)
Theorem assemble_aborts_midway repr (self : App) identifier fk labels out
    tr0 self0 g (b1 : list raw_record) raw b2 e :
  runs (records self identifier false None None) tr0 (self0, Ok g) →
  records_raw g = b1 ++ raw :: b2 →
  (∀ e', (assemble_loop repr (fk +:+ "_raw") labels out b1).2 ≠ Raise e') →
  assemble_record repr (fk +:+ "_raw") labels out raw = Raise e →
  runs (_assemble_downloads repr self identifier fk labels out) tr0
    (set_data self0
       (<[container_key g :=
            (assemble_loop repr (fk +:+ "_raw") labels out b1).1
            ++ raw :: b2]> (data self0)),
     Raise e)
  ∧ has_breakpoint tr0 = false.
Proof.
  intros Hrec Hb Hok Hraw.
  split; [| exact (proj2 (proj2 (records_trace _ _ _ _ _ _ _ Hrec)))].
  unfold _assemble_downloads.
  rewrite <- (app_nil_r tr0). eapply runs_bind; [exact Hrec |].
  simpl. rewrite Hb.
  rewrite (assemble_loop_prefix repr _ labels out b1 raw b2 e Hok Hraw).
  apply runs_Ret.
Qed.

(** The second record of the cached batch has a payload without file name:
    the assembly raises [KeyError], and the first record stays rewritten. *)
Lemma assemble_aborts_midway_example :
  let self :=
    Sample.app
      {[ Some "object_1" := [Sample.record_ab; Sample2.record_nameless] ]} in
  let g :=
    mkRecords (Some "object_1") [Sample.record_ab; Sample2.record_nameless] in
  (runs (records self (Some "object_1") false None None) [] (self, Ok g)
   ∧ assemble_record Sample.repr_dict ("field_17" +:+ "_raw")
       (Some ["field_1"]) "_downloads" Sample2.record_nameless
     = Raise (KeyError "filename"))
  ∧ runs (_assemble_downloads Sample.repr_dict self (Some "object_1")
            "field_17" (Some ["field_1"]) "_downloads") []
      (set_data self
         (<[Some "object_1" :=
              [Sample.record_ab1; Sample2.record_nameless]]> (data self)),
       Raise (KeyError "filename")).
Proof.
  intros self g.
  assert (runs (records self (Some "object_1") false None None) []
            (self, Ok g)) as Hrec.
  { rewrite (records_resolved self (Some "object_1") (Some "object_1")
               Sample.customers false None None)
      by (vm_compute; reflexivity).
    cbv zeta.
    change (py_or (obj Sample.customers) (view Sample.customers))
      with (Some "object_1").
    replace (data self !! Some "object_1")
      with (Some [Sample.record_ab; Sample2.record_nameless])
      by (vm_compute; reflexivity).
    apply runs_Ret. }
  assert (assemble_record Sample.repr_dict ("field_17" +:+ "_raw")
            (Some ["field_1"]) "_downloads" Sample2.record_nameless
          = Raise (KeyError "filename")) as Hraw by (vm_compute; reflexivity).
  assert (assemble_loop Sample.repr_dict ("field_17" +:+ "_raw")
            (Some ["field_1"]) "_downloads" [Sample.record_ab]
          = ([Sample.record_ab1], Ok [Sample.doc1])) as Hl
    by (vm_compute; reflexivity).
  split; [auto |].
  pose proof (assemble_aborts_midway Sample.repr_dict self (Some "object_1")
                "field_17" (Some ["field_1"]) "_downloads" [] self g
                [Sample.record_ab] Sample2.record_nameless []
                (KeyError "filename") Hrec eq_refl) as H.
  rewrite Hl in H. exact (proj1 (H ltac:(intros e'; discriminate) Hraw)).
Defined.

(** ** The assembler: the list it returns and what it leaves alone *)

Lemma runs_assemble_descriptors repr (self : App) identifier
    fk labels out tr self' ds :
  runs (_assemble_downloads repr self identifier fk labels out) tr
    (self', Ok ds) →
  ∃ tr0 self0 g,
    runs (records self identifier false None None) tr0 (self0, Ok g)
    ∧ tr = tr0 ++ [OBreakpoint (Ok tt)]
    ∧ length ds
      = length (List.filter (has_attachment (fk +:+ "_raw")) (records_data g))
    ∧ Forall2
        (fun raw d =>
           ∃ d0 f path,
             raw !! (fk +:+ "_raw") = Some (VDict d0)
             ∧ d0 !! "filename" = Some f
             ∧ path_join out (composed_name repr labels raw f) = Ok path
             ∧ d = <["filename" := SStr path]> d0)
        (List.filter (has_attachment (fk +:+ "_raw")) (records_data g)) ds.
Proof.
  intros H.
  apply runs_assemble_inv in H as (tr0 & self0 & [g | e] & Hrec & Hm);
    [| destruct Hm as (_ & _ & [=])].
  cbv zeta in Hm. destruct Hm as (_ & Hm).
  destruct (assemble_loop repr (fk +:+ "_raw") labels out (records_raw g))
    as [b' [ds' | e]] eqn:Hl; simpl in Hm; [| destruct Hm as [_ [=]]].
  destruct Hm as ([[] | e] & -> & [= <-]).
  pose proof (assemble_loop_downloads _ _ _ _ _ _ _ Hl) as Hf.
  exists tr0, self0, g. split; [exact Hrec |]. split; [reflexivity |].
  split; [| exact Hf]. symmetry. exact (Forall2_length _ _ _ Hf).
Qed.

(** X9. The list [_assemble_downloads] returns has exactly one descriptor
    per record of the batch that carries an attachment, in the order of the
    records: the descriptor of a record is its payload dict with the file
    name replaced by the destination path. Records without attachment give
    no descriptor. *)
Theorem assemble_one_descriptor_per_attachment repr (self : App) identifier
    fk labels out tr self' ds :
  runs (_assemble_downloads repr self identifier fk labels out) tr
    (self', Ok ds) →
  ∃ tr0 self0 g,
    runs (records self identifier false None None) tr0 (self0, Ok g)
    ∧ tr = tr0 ++ [OBreakpoint (Ok tt)]
    ∧ length ds
      = length (List.filter (has_attachment (fk +:+ "_raw")) (records_data g))
    ∧ Forall2
        (fun raw d =>
           ∃ d0 f path,
             raw !! (fk +:+ "_raw") = Some (VDict d0)
             ∧ d0 !! "filename" = Some f
             ∧ path_join out (composed_name repr labels raw f) = Ok path
             ∧ d = <["filename" := SStr path]> d0)
        (List.filter (has_attachment (fk +:+ "_raw")) (records_data g)) ds.
Proof. apply runs_assemble_descriptors. Qed.


Lemma only_filename_rewritten_refl fkr (raw : raw_record) :
  only_filename_rewritten fkr raw raw.
Proof. unfold only_filename_rewritten. auto. Qed.

(** X10. The loop of the assembler keeps the length and the order of the
    batch, and changes nothing in a record but the [filename] entry of its
    attachment payload: every other field of the record and every other
    attribute of the payload stay as they were, and a record without
    attachment is not touched at all. This holds as well when the loop is
    left by an exception. *)
Theorem assemble_loop_frame repr fkr labels out (b : list raw_record) :
  Forall2 (only_filename_rewritten fkr) b
    (assemble_loop repr fkr labels out b).1.
Proof.
  induction b as [| raw b IH]; simpl; [constructor |].
  pose proof (assemble_record_inv repr fkr labels out raw) as Hinv.
  destruct (assemble_record repr fkr labels out raw) as [[d |] | e].
  - destruct (assemble_loop repr fkr labels out b) as [b1 r]; simpl in *.
    constructor; [| exact IH].
    destruct Hinv as (Ha & d0 & f & path & Hraw & Hf & Hp & ->).
    unfold only_filename_rewritten. split; [| split].
    + intros k Hk. apply lookup_insert_ne. congruence.
    + rewrite Ha. discriminate.
    + right. exists d0, path. split; [exact Hraw | apply lookup_insert_eq].
  - destruct (assemble_loop repr fkr labels out b) as [b1 r]; simpl in *.
    constructor; [apply only_filename_rewritten_refl | exact IH].
  - simpl. constructor; [apply only_filename_rewritten_refl |].
    clear. induction b; constructor; auto using only_filename_rewritten_refl.
Qed.

(** ** The destination path *)

Lemma append_assoc_string (a b c : string) : (a +:+ b) +:+ c = a +:+ (b +:+ c).
Proof.
  induction a as [| ch a IH]; [reflexivity |].
  change (String ch ((a +:+ b) +:+ c) = String ch (a +:+ (b +:+ c))).
  f_equal. exact IH.
Qed.

Lemma labelled_name_suffix repr (raw : raw_record) (l : list string) (f : scalar) :
  ∃ pre, labelled_name repr raw l f = pre +:+ str_scalar f.
Proof.
  induction l as [| k l [pre IH]]; simpl.
  - exists "". reflexivity.
  - exists (str_value repr (raw_get raw k) +:+ "_" +:+ pre).
    rewrite IH.
    rewrite (append_assoc_string (str_value repr (raw_get raw k))
               ("_" +:+ pre) (str_scalar f)).
    reflexivity.
Qed.

(** X11. The destination path the assembler writes. With [name] the label
    values in the order of [label_keys], each followed by an underscore,
    and then the upstream file name, which [name] therefore ends with: the
    path is [name] alone when [name] starts with a separator, [out_dir]
    being ignored, and when [out_dir] is empty; it is [out_dir] directly
    followed by [name] when [out_dir] ends with a separator; and it is
    [out_dir], a separator and [name] in every other case. *)
Theorem destination_path_shape repr fkr labels out (raw : raw_record)
    (d' : file_dict) :
  assemble_record repr fkr labels out raw = Ok (Some d') →
  ∃ d f path,
    raw !! fkr = Some (VDict d) ∧ d !! "filename" = Some f
    ∧ d' = <["filename" := SStr path]> d
    ∧ let name := labelled_name repr raw (default [] labels) f in
      (∃ pre, name = pre +:+ str_scalar f)
      ∧ (starts_with_sep name = true → path = name)
      ∧ (starts_with_sep name = false →
         (out = "" → path = name)
         ∧ (∀ o, out = o +:+ "/" → path = out +:+ name)
         ∧ (out ≠ "" → (∀ o, out ≠ o +:+ "/") →
            path = out +:+ "/" +:+ name)).
Proof.
  intros H. pose proof (assemble_record_inv repr fkr labels out raw) as Hinv.
  rewrite H in Hinv. destruct Hinv as (_ & d & f & path & Hraw & Hf & Hp & ->).
  exists d, f, path. do 3 (split; [assumption || reflexivity |]).
  cbv zeta. split; [apply labelled_name_suffix |].
  rewrite <- str_composed_name.
  destruct (composed_name repr labels raw f) as [| | | name];
    try discriminate.
  injection Hp as <-. simpl. apply posix_join_cases.
Qed.

(** The record of the specification's example, assembled with the label
    key [field_1] into [_downloads], which is not empty and does not end
    with a separator: the path is [_downloads], a separator and the name,
    [A_doc.pdf]. *)
Lemma destination_path_shape_example :
  assemble_record Sample.repr_dict "field_17_raw" (Some ["field_1"])
    "_downloads" Sample.record_ab
  = Ok (Some Sample.doc1)
  ∧ ∃ d f path,
      Sample.record_ab !! "field_17_raw" = Some (VDict d)
      ∧ d !! "filename" = Some f
      ∧ Sample.doc1 = <["filename" := SStr path]> d
      ∧ path
        = "_downloads" +:+ "/"
          +:+ labelled_name Sample.repr_dict Sample.record_ab ["field_1"] f.
Proof.
  assert (assemble_record Sample.repr_dict "field_17_raw" (Some ["field_1"])
            "_downloads" Sample.record_ab
          = Ok (Some Sample.doc1)) as H by (vm_compute; reflexivity).
  split; [exact H |].
  destruct (destination_path_shape Sample.repr_dict "field_17_raw"
              (Some ["field_1"]) "_downloads" Sample.record_ab Sample.doc1 H)
    as (d & f & path & Hraw & Hf & Hd & _ & _ & Hrel).
  exists d, f, path. do 3 (split; [assumption |]).
  assert (starts_with_sep
            (labelled_name Sample.repr_dict Sample.record_ab ["field_1"] f)
          = false) as Hs by (vm_compute; reflexivity).
  apply (Hrel Hs); [discriminate |].
  intros o Ho.
  assert (ends_with_sep "_downloads" = true) as He
    by (apply ends_with_sep_spec; eauto).
  discriminate He.
Defined.

(** Two cached records, one of them without attachment: one descriptor. *)
Lemma assemble_one_descriptor_per_attachment_example :
  let self :=
    Sample.app
      {[ Some "object_1" := [Sample.record_ab; Sample2.record_plain] ]} in
  let self' :=
    set_data self
      (<[Some "object_1" := [Sample.record_ab0; Sample2.record_plain]]>
         (data self)) in
  runs (_assemble_downloads Sample.repr_dict self (Some "object_1")
          "field_17" None "_downloads")
    [OBreakpoint (Ok tt)] (self', Ok [Sample.doc0])
  ∧ ∃ tr0 self0 g,
      runs (records self (Some "object_1") false None None) tr0 (self0, Ok g)
      ∧ length [Sample.doc0]
        = length (List.filter (has_attachment ("field_17" +:+ "_raw"))
                    (records_data g)).
Proof.
  intros self self'.
  assert (runs (_assemble_downloads Sample.repr_dict self (Some "object_1")
                  "field_17" None "_downloads")
            [OBreakpoint (Ok tt)] (self', Ok [Sample.doc0])) as H.
  { apply (runs_assemble_cached Sample.repr_dict self (Some "object_1")
             (Some "object_1") Sample.customers "field_17" None "_downloads"
             Sample.record_ab [Sample2.record_plain]
             [Sample.record_ab0; Sample2.record_plain] [Sample.doc0] (Ok tt));
      vm_compute; reflexivity. }
  split; [exact H |].
  destruct (assemble_one_descriptor_per_attachment _ _ _ _ _ _ _ _ _ H)
    as (tr0 & self0 & g & Hrec & _ & Hlen & _).
  exists tr0, self0, g. auto.
Defined.

(** ** The executor: exceptions, writes, malformed descriptors *)

Section ExecutorMore.
Variable hb : scalar -> result string.

Lemma download_loop_exception ds c tr r tr1 o tr2 e :
  runs (download_loop hb ds c) tr r →
  tr = tr1 ++ o :: tr2 → raised o = Some e →
  tr2 = [] ∧ r = Raise e.
Proof.
  revert c tr tr1. induction ds as [| d ds IH]; intros c tr tr1 H Heq Hr.
  - apply runs_Ret_inv in H as [-> _]. destruct tr1; discriminate.
  - apply runs_download_loop_cons in H
      as [(e0 & Ht & ->) | (t1 & t2 & Ht & H & ->)].
    + inversion Ht; subst; destruct tr1 as [| o1 [| o2 tr1]];
        simplify_eq/=; auto;
        try (exfalso; eapply app_cons_not_nil; eassumption).
    + inversion Ht; subst.
      destruct tr1 as [| o1 [| o2 tr1]]; simplify_eq/=.
      exact (IH _ _ _ H eq_refl Hr).
Qed.

Lemma download_loop_write_follows_fetch ds c tr r tr1 fn body a tr2 :
  runs (download_loop hb ds c) tr r →
  tr = tr1 ++ OOpenWrite fn body a :: tr2 →
  ∃ tr0 u res d,
    tr1 = tr0 ++ [OHttpGet u (Ok res)]
    ∧ body = content res ∧ is_error_status res = false
    ∧ ds !! length (http_calls tr0) = Some d
    ∧ d !! "filename" = Some fn ∧ d !! "url" = Some u.
Proof.
  revert c tr tr1. induction ds as [| d ds IH]; intros c tr tr1 H Heq.
  - apply runs_Ret_inv in H as [-> _]. destruct tr1; discriminate.
  - apply runs_download_loop_cons in H
      as [(e0 & Ht & ->) | (t1 & t2 & Ht & H & ->)].
    + inversion Ht as [| | | fn' u' res' e' Hf Hs |]; subst;
        destruct tr1 as [| o1 [| o2 tr1]]; simplify_eq/=;
        try (exfalso; eapply app_cons_not_nil; eassumption).
      apply descriptor_fields_ok in Hf as [Hfn Hu].
      exists [], u', res', d. repeat split; auto.
    + inversion Ht as [| | | | fn' u' res' Hf Hs]; subst.
      apply descriptor_fields_ok in Hf as [Hfn Hu].
      destruct tr1 as [| o1 [| o2 tr1]]; simplify_eq/=.
      * exists [], u', res', d. repeat split; auto.
      * destruct (IH _ _ _ H eq_refl)
          as (tr0 & u & res & d0 & -> & ? & ? & ? & ? & ?).
        exists (OHttpGet u' (Ok res') :: OOpenWrite fn' (content res') (Ok ())
                :: tr0), u, res, d0. repeat split; auto.
Qed.

Lemma descriptor_fields_missing (d : file_dict) :
  d !! "filename" = None ∨ d !! "size" = None ∨ d !! "url" = None →
  ∃ e, descriptor_fields hb d = Raise e.
Proof.
  unfold descriptor_fields, subscript.
  destruct (d !! "filename"); [| eauto].
  destruct (d !! "size") as [sz |]; [| eauto].
  destruct (hb sz); [| eauto].
  destruct (d !! "url"); [| eauto].
  intros [H | [H | H]]; discriminate.
Qed.

Lemma download_loop_malformed ds c tr r i (d : file_dict) e :
  ds !! i = Some d → descriptor_fields hb d = Raise e →
  runs (download_loop hb ds c) tr r →
  (length (http_calls tr) ≤ i)%nat ∧ (∀ n, r ≠ Ok n)
  ∧ (length (writes tr) = i → r = Raise e).
Proof.
  revert c tr i. induction ds as [| d0 ds IH]; intros c tr i Hi Hd H;
    [destruct i; discriminate |].
  apply runs_download_loop_cons in H
    as [(e0 & Ht & ->) | (t1 & t2 & Ht & H & ->)].
  - destruct i as [| i]; simpl in Hi.
    + injection Hi as ->. inversion Ht; subst; try congruence.
      simpl. repeat split; [lia | discriminate | congruence].
    + inversion Ht; subst; simpl;
        (split; [lia | split; [discriminate | intros; lia]]).
  - inversion Ht as [| | | | fn u res Hf Hs]; subst.
    destruct i as [| i]; simpl in Hi; [congruence |].
    destruct (IH _ _ _ Hi Hd H) as (Hlen & Hno & Hw).
    simpl. repeat split; [lia | exact Hno |]. intros Hl. apply Hw. lia.
Qed.
End ExecutorMore.

(** X12. Any exception ends the download batch, not only an error status:
    when [requests.get] raises, or opening or writing the file does, it is
    the last call of the run and [_download_files] raises that exception. *)
Theorem download_files_exception_aborts (hb : scalar -> result string)
    (ds : list file_dict) tr r tr1 o tr2 e :
  runs (_download_files hb ds) tr r →
  tr = tr1 ++ o :: tr2 → raised o = Some e →
  tr2 = [] ∧ r = Raise e.
Proof. apply download_loop_exception. Qed.

Lemma runs_five_connection_error :
  runs (_download_files Sample.humanize_bytes Sample.five)
    (Sample.first_transfer
     ++ [OHttpGet (SStr "https://files.example/2.pdf")
           (Raise (ExternalError "ConnectionError"))])
    (Raise (ExternalError "ConnectionError")).
Proof.
  vm_compute. apply runs_HttpGet. vm_compute. apply runs_OpenWrite.
  vm_compute. apply runs_HttpGet. vm_compute. apply runs_Ret.
Qed.

Lemma download_files_exception_aborts_example :
  runs (_download_files Sample.humanize_bytes Sample.five)
    (Sample.first_transfer
     ++ [OHttpGet (SStr "https://files.example/2.pdf")
           (Raise (ExternalError "ConnectionError"))])
    (Raise (ExternalError "ConnectionError"))
  ∧ @nil obs = []
  ∧ @Raise nat (ExternalError "ConnectionError")
    = Raise (ExternalError "ConnectionError").
Proof.
  split; [exact runs_five_connection_error |].
  exact (download_files_exception_aborts Sample.humanize_bytes Sample.five _ _
           Sample.first_transfer _ [] (ExternalError "ConnectionError")
           runs_five_connection_error eq_refl eq_refl).
Defined.

(** X13. [_download_files] writes a file only right after the successful
    fetch of the same descriptor: the call before a write is the fetch of
    the descriptor's URL, answered without error status, the name written
    to is the descriptor's file name, and the bytes written are the content
    of that response. *)
Theorem download_files_write_follows_fetch (hb : scalar -> result string)
    (ds : list file_dict) tr r tr1 fn body a tr2 :
  runs (_download_files hb ds) tr r →
  tr = tr1 ++ OOpenWrite fn body a :: tr2 →
  ∃ tr0 u res d,
    tr1 = tr0 ++ [OHttpGet u (Ok res)]
    ∧ body = content res ∧ is_error_status res = false
    ∧ ds !! length (http_calls tr0) = Some d
    ∧ d !! "filename" = Some fn ∧ d !! "url" = Some u.
Proof. apply download_loop_write_follows_fetch. Qed.

Lemma download_files_write_follows_fetch_example :
  let u1 := SStr "https://files.example/1.pdf" in
  let tr := Sample.first_transfer
            ++ [OHttpGet (SStr "https://files.example/2.pdf")
                  (Raise (ExternalError "ConnectionError"))] in
  (runs (_download_files Sample.humanize_bytes Sample.five) tr
     (Raise (ExternalError "ConnectionError"))
   ∧ tr = [OHttpGet u1 (Ok Sample.ok1)]
          ++ OOpenWrite (SStr "_downloads/1.pdf") "one" (Ok tt)
             :: [OHttpGet (SStr "https://files.example/2.pdf")
                   (Raise (ExternalError "ConnectionError"))])
  ∧ ∃ tr0 u res d,
      [OHttpGet u1 (Ok Sample.ok1)] = tr0 ++ [OHttpGet u (Ok res)]
      ∧ "one" = content res
      ∧ Sample.five !! length (http_calls tr0) = Some d.
Proof.
  intros u1 tr.
  split; [split; [exact runs_five_connection_error | reflexivity] |].
  destruct (download_files_write_follows_fetch Sample.humanize_bytes
              Sample.five tr _ [OHttpGet u1 (Ok Sample.ok1)]
              (SStr "_downloads/1.pdf") "one" (Ok tt) _
              runs_five_connection_error eq_refl)
    as (tr0 & u & res & d & H1 & H2 & _ & H3 & _).
  exists tr0, u, res, d. auto.
Defined.

(** X14. A descriptor that lacks the [filename], [size] or [url] entry
    makes the batch fail: no run of [_download_files] over a list holding
    it returns a count, no URL at or after its position is fetched, and
    once the descriptors before it have been written the run raises the
    exception of that descriptor (a [KeyError], or what
    [utils.humanize_bytes] raises). *)
Theorem download_files_malformed_descriptor (hb : scalar -> result string)
    (ds : list file_dict) (i : nat) (d : file_dict) tr r :
  ds !! i = Some d →
  d !! "filename" = None ∨ d !! "size" = None ∨ d !! "url" = None →
  runs (_download_files hb ds) tr r →
  ∃ e, descriptor_fields hb d = Raise e
       ∧ (length (http_calls tr) ≤ i)%nat
       ∧ (∀ n, r ≠ Ok n)
       ∧ (length (writes tr) = i → r = Raise e).
Proof.
  intros Hi Hm H. destruct (descriptor_fields_missing hb d Hm) as [e He].
  exists e. split; [exact He |].
  exact (download_loop_malformed hb ds 0 tr r i d e Hi He H).
Qed.

Lemma download_files_malformed_descriptor_example :
  let ds := [Sample.file "1.pdf"; Sample2.nameless] in
  (ds !! 1%nat = Some Sample2.nameless
   ∧ Sample2.nameless !! "filename" = None
   ∧ runs (_download_files Sample.humanize_bytes ds) Sample.first_transfer
       (Raise (KeyError "filename")))
  ∧ ∃ e, descriptor_fields Sample.humanize_bytes Sample2.nameless = Raise e
         ∧ (length (http_calls Sample.first_transfer) ≤ 1)%nat
         ∧ (length (writes Sample.first_transfer) = 1%nat →
            @Raise nat (KeyError "filename") = Raise e).
Proof.
  intros ds.
  assert (Sample2.nameless !! "filename" = None) as Hn
    by (vm_compute; reflexivity).
  assert (runs (_download_files Sample.humanize_bytes ds)
            Sample.first_transfer (Raise (KeyError "filename"))) as Hrun.
  { vm_compute. apply runs_HttpGet. vm_compute. apply runs_OpenWrite.
    vm_compute. apply runs_Ret. }
  split; [auto |].
  destruct (download_files_malformed_descriptor Sample.humanize_bytes ds 1
              Sample2.nameless _ _ eq_refl (or_introl Hn) Hrun)
    as (e & He & Hlen & _ & Hw).
  exists e. auto.
Defined.

(** ** [download]: what happens before and after the assembly *)

(** X15. [download] creates the output directory before it looks at the
    identifier and the field: when the identifier names no single
    container, or no field definition is found, every run consists of the
    test for the directory and, if it is absent, its creation, and then
    raises the error. Nothing is fetched and the [App] is unchanged, but a
    directory may have been left behind. *)
Theorem download_fails_after_mkdir repr hb (self : App)
    (identifier : option string) (field out : string)
    (labels : option (list string)) (e : exn) tr res :
  _find_container self identifier = Raise e
  ∨ (∃ c, _find_container self identifier = Ok c
          ∧ _find_field_def self field identifier = []
          ∧ e = UnknownField field) →
  runs (download repr hb self identifier field out labels) tr res →
  (tr = [OPathExists out true] ∧ res = (self, Raise e))
  ∨ (tr = [OPathExists out false; OMakeDirs out (Ok tt)]
     ∧ res = (self, Raise e))
  ∨ (∃ e', tr = [OPathExists out false; OMakeDirs out (Raise e')]
           ∧ res = (self, Raise e')).
Proof.
  intros Hfail H.
  assert (download_body repr hb self identifier field out labels
          = Ret (self, Raise e)) as Hbody.
  { unfold download_body. destruct Hfail as [-> | (c & -> & -> & ->)];
      reflexivity. }
  unfold download in H. rewrite Hbody in H.
  apply runs_PathExists_inv in H as ([|] & t1 & -> & H).
  - apply runs_Ret_inv in H as [-> ->]. auto.
  - apply runs_MakeDirs_inv in H as ([[] | e'] & t2 & -> & H);
      apply runs_Ret_inv in H as [-> ->]; eauto.
Qed.

Lemma download_fails_after_mkdir_example :
  let self := Sample.app ∅ in
  (_find_container self (Some "Invoices")
   = Raise (UnknownContainer (Some "Invoices"))
   ∧ runs (download Sample.repr_dict Sample.humanize_bytes self
             (Some "Invoices") "field_17" "_downloads" None)
       [OPathExists "_downloads" false; OMakeDirs "_downloads" (Ok tt)]
       (self, Raise (UnknownContainer (Some "Invoices"))))
  ∧ ([OPathExists "_downloads" false; OMakeDirs "_downloads" (Ok tt)]
     = [OPathExists "_downloads" true]
     ∧ (self, @Raise nat (UnknownContainer (Some "Invoices")))
       = (self, Raise (UnknownContainer (Some "Invoices")))
     ∨ [OPathExists "_downloads" false; OMakeDirs "_downloads" (Ok tt)]
       = [OPathExists "_downloads" false; OMakeDirs "_downloads" (Ok tt)]
       ∧ (self, @Raise nat (UnknownContainer (Some "Invoices")))
         = (self, Raise (UnknownContainer (Some "Invoices")))
     ∨ ∃ e',
         [OPathExists "_downloads" false; OMakeDirs "_downloads" (Ok tt)]
         = [OPathExists "_downloads" false; OMakeDirs "_downloads" (Raise e')]
         ∧ (self, @Raise nat (UnknownContainer (Some "Invoices")))
           = (self, Raise e')).
Proof.
  intros self.
  assert (_find_container self (Some "Invoices")
          = Raise (UnknownContainer (Some "Invoices"))) as Hc
    by (vm_compute; reflexivity).
  assert (runs (download Sample.repr_dict Sample.humanize_bytes self
                  (Some "Invoices") "field_17" "_downloads" None)
            [OPathExists "_downloads" false; OMakeDirs "_downloads" (Ok tt)]
            (self, Raise (UnknownContainer (Some "Invoices")))) as H.
  { unfold download. apply (runs_PathExists _ _ false).
    apply (runs_MakeDirs _ _ (Ok tt)). unfold download_body. rewrite Hc.
    apply runs_Ret. }
  split; [auto |].
  exact (download_fails_after_mkdir Sample.repr_dict Sample.humanize_bytes
           self (Some "Invoices") "field_17" "_downloads" None _ _ _
           (or_introl Hc) H).
Defined.

Lemma download_loop_writes hb ds c tr c' :
  runs (download_loop hb ds c) tr (Ok c') →
  length (writes tr) = length ds.
Proof.
  intros H. destruct (download_loop_count hb ds c tr c' H) as (_ & _ & Hw & _).
  apply (f_equal length) in Hw. rewrite !length_fmap in Hw. exact Hw.
Qed.

(** X16. The count [download] returns is the number of records with an
    attachment under the field among the records this very call got from
    [records]: every run that returns a count consists of the test for the
    directory (and its creation), the run of [records] for the container's
    object key, the debugger, and the transfers; the batch counted is the
    one that run of [records] returned, which is the answer of its
    transport call when it made one and the cache entry otherwise; and the
    count is also the number of files written. *)
Theorem download_count_is_attachments repr hb (self : App)
    (identifier : option string) (field out : string)
    (labels : option (list string)) tr self' n :
  runs (download repr hb self identifier field out labels) tr (self', Ok n) →
  ∃ c fd pre tr0 self0 g td,
    _find_container self identifier = Ok c
    ∧ head (_find_field_def self field identifier) = Some fd
    ∧ tr = pre ++ tr0 ++ OBreakpoint (Ok tt) :: td
    ∧ (pre = [OPathExists out true]
       ∨ pre = [OPathExists out false; OMakeDirs out (Ok tt)])
    ∧ runs (records self (obj c) false None None) tr0 (self0, Ok g)
    ∧ (tr0 = [] ∧ data self !! container_key g = Some (records_data g)
       ∨ ∃ rq, tr0 = [OApiGet rq (Ok (records_data g))])
    ∧ api_calls td = [] ∧ has_breakpoint td = false
    ∧ n = length (List.filter (has_attachment (fd_key fd +:+ "_raw"))
                    (records_data g))
    ∧ n = length (writes td).
Proof.
  intros H. unfold download in H.
  assert (∀ tb, runs (download_body repr hb self identifier field out labels)
                  tb (self', Ok n) →
            ∃ c fd tr0 self0 g td,
              _find_container self identifier = Ok c
              ∧ head (_find_field_def self field identifier) = Some fd
              ∧ tb = tr0 ++ OBreakpoint (Ok tt) :: td
              ∧ runs (records self (obj c) false None None) tr0 (self0, Ok g)
              ∧ (tr0 = []
                 ∧ data self !! container_key g = Some (records_data g)
                 ∨ ∃ rq, tr0 = [OApiGet rq (Ok (records_data g))])
              ∧ api_calls td = [] ∧ has_breakpoint td = false
              ∧ n = length (List.filter
                              (has_attachment (fd_key fd +:+ "_raw"))
                              (records_data g))
              ∧ n = length (writes td)) as Hbody.
  { intros tb Hb.
    apply runs_download_body_inv in Hb
      as (c & fd & ta & ds & td & Hc & Hfd & Ha & Hd & ->).
    apply runs_assemble_descriptors in Ha
      as (tr0 & self0 & g & Hrec & -> & Hlen & _).
    destruct (download_loop_count hb ds 0 td n Hd) as (-> & _).
    destruct (download_loop_trace hb ds 0 td _ Hd) as [Hta Htb].
    pose proof (download_loop_writes hb ds 0 td _ Hd) as Hw.
    exists c, fd, tr0, self0, g, td.
    split; [exact Hc |]. split; [exact Hfd |].
    split; [rewrite <- app_assoc; reflexivity |]. split; [exact Hrec |].
    split.
    { destruct (runs_records_cases _ _ _ _ _ _ _ Hrec)
        as [(_ & e & [=]) | (id' & c' & Hid & Hc')].
      destruct (runs_records_inv _ _ _ _ _ _ _ _ _ _ Hid Hc' Hrec)
        as (Hg & _ & [[-> Hin] | ->]); [left | right; eauto].
      split; [reflexivity |]. rewrite Hg. exact Hin. }
    split; [exact Hta |]. split; [exact Htb |].
    split; [rewrite <- Hlen; reflexivity | symmetry; exact Hw]. }
  apply runs_PathExists_inv in H as ([|] & t1 & -> & H).
  - destruct (Hbody _ H)
      as (c & fd & tr0 & self0 & g & td & Hc & Hfd & -> & Hrest).
    exists c, fd, [OPathExists out true], tr0, self0, g, td.
    split; [exact Hc |]. split; [exact Hfd |]. split; [reflexivity |].
    split; [left; reflexivity | exact Hrest].
  - apply runs_MakeDirs_inv in H as ([[] | e] & t2 & -> & H);
      [| apply runs_Ret_inv in H as [_ [=]]].
    destruct (Hbody _ H)
      as (c & fd & tr0 & self0 & g & td & Hc & Hfd & -> & Hrest).
    exists c, fd, [OPathExists out false; OMakeDirs out (Ok tt)], tr0, self0,
      g, td.
    split; [exact Hc |]. split; [exact Hfd |]. split; [reflexivity |].
    split; [right; reflexivity | exact Hrest].
Qed.

(** One cached record with an attachment: one file is fetched and written,
    and the count is one. *)
Lemma download_count_is_attachments_example :
  let self := Sample.app {[ Some "object_1" := [Sample.record_ab] ]} in
  let self1 := Sample.app {[ Some "object_1" := [Sample.record_ab0] ]} in
  let tr :=
    [OPathExists "_downloads" true;
     OBreakpoint (Ok tt);
     OHttpGet (SStr "https://api.knack.com/v1/download/asset/1/doc.pdf")
       (Ok Sample.ok_doc);
     OOpenWrite (SStr "_downloads/doc.pdf") "%PDF" (Ok tt)] in
  runs (download Sample.repr_dict Sample.humanize_bytes self
          (Some "object_1") "field_17" "_downloads" None) tr (self1, Ok 1%nat)
  ∧ ∃ c fd pre tr0 self0 g td,
      _find_container self (Some "object_1") = Ok c
      ∧ tr = pre ++ tr0 ++ OBreakpoint (Ok tt) :: td
      ∧ runs (records self (obj c) false None None) tr0 (self0, Ok g)
      ∧ 1%nat = length (List.filter (has_attachment (fd_key fd +:+ "_raw"))
                          (records_data g))
      ∧ 1%nat = length (writes td).
Proof.
  intros self self1 tr.
  pose proof download_passes_debugger as H. cbv zeta in H.
  split; [exact H |].
  destruct (download_count_is_attachments _ _ _ _ _ _ _ _ _ _ H)
    as (c & fd & pre & tr0 & self0 & g & td & Hc & _ & Htr & _ & Hrec & _ & _
        & _ & Hn & Hw).
  exists c, fd, pre, tr0, self0, g, td. auto.
Defined.

(** ** [to_csv] *)

Section ToCsvFacts.
Variable row : Type.
Variable format_record : raw_record -> result row.
Variable row_keys : row -> list string.
Variable csv_render : string -> list string -> list row -> string * option exn.

Lemma open_calls_app tr1 tr2 : open_calls (tr1 ++ tr2) = open_calls tr1 ++ open_calls tr2.
Proof. apply omap_app. Qed.

(** [records] opens no file; a transport answer in its trace is the batch
    it returns. *)
Lemma records_trace_answer (self : App) identifier refresh lim fil tr self' r :
  runs (records self identifier refresh lim fil) tr (self', r) →
  open_calls tr = []
  ∧ ∀ rq b, In (OApiGet rq (Ok b)) tr → ∃ g, r = Ok g ∧ records_data g = b.
Proof.
  unfold records.
  destruct (effective_identifier self identifier) as [id' | e];
    [| intros H; apply runs_Ret_inv in H as [-> _]; split; [| intros ? ? []];
       reflexivity].
  destruct (_find_container self id') as [c | e];
    [| intros H; apply runs_Ret_inv in H as [-> _]; split; [| intros ? ? []];
       reflexivity].
  cbv zeta.
  assert (∀ key, runs (fetch_records self c key lim fil) tr (self', r) →
            open_calls tr = []
            ∧ ∀ rq b, In (OApiGet rq (Ok b)) tr →
                      ∃ g, r = Ok g ∧ records_data g = b) as Hfetch.
  { intros key Hf. apply runs_fetch_records in Hf as (a & -> & Ha).
    split; [reflexivity |]. intros rq b [Hin | []]. injection Hin as _ ->.
    injection Ha as _ ->. eauto. }
  destruct (data self !! py_or (obj c) (view c)) as [[| r0 b0] |];
    [| destruct refresh |]; intros H; try exact (Hfetch _ H).
  apply runs_Ret_inv in H as [-> _]. split; [reflexivity | intros ? ? []].
Qed.

Lemma runs_to_csv_body_inv (self : App) identifier out delim tr self' r :
  runs (to_csv_body row format_record row_keys csv_render self identifier out
          delim) tr (self', r) →
  ∃ tr0 r0,
    runs (records self identifier false None None) tr0 (self', r0)
    ∧ match r0 with
      | Raise e => tr = tr0 ∧ r = Raise e
      | Ok g =>
          match format_all row format_record (records_raw g) with
          | Raise e => tr = tr0 ∧ r = Raise e
          | Ok [] =>
              tr = tr0 ∧ r = Raise (IndexError "list index out of range")
          | Ok (first :: rest) =>
              ∃ a,
                tr = tr0
                     ++ [OOpenWrite (SStr (csv_filename identifier out))
                           (csv_render delim (row_keys first)
                              (first :: rest)).1 a]
                ∧ r = match a with
                      | Raise e => Raise e
                      | Ok _ =>
                          match (csv_render delim (row_keys first)
                                   (first :: rest)).2 with
                          | Some e => Raise e
                          | None => Ok tt
                          end
                      end
          end
      end.
Proof.
  unfold to_csv_body. intros H.
  apply runs_bind_inv in H as (tr0 & [self0 r0] & t2 & H0 & H & ->).
  destruct r0 as [g | e]; simpl in H.
  - destruct (format_all row format_record (records_raw g))
      as [[| first rest] | e] eqn:Hfmt.
    + apply runs_Ret_inv in H as [-> [= -> ->]].
      exists tr0, (Ok g). rewrite Hfmt, app_nil_r. auto.
    + apply runs_OpenWrite_inv in H as (a & t3 & -> & H).
      exists tr0, (Ok g). rewrite Hfmt.
      destruct a as [[] | e].
      * destruct (csv_render delim (row_keys first) (first :: rest)).2;
          apply runs_Ret_inv in H as [-> [= -> ->]];
          (split; [exact H0 | exists (Ok tt); auto]).
      * apply runs_Ret_inv in H as [-> [= -> ->]].
        split; [exact H0 | exists (Raise e); auto].
    + apply runs_Ret_inv in H as [-> [= -> ->]].
      exists tr0, (Ok g). rewrite Hfmt, app_nil_r. auto.
  - apply runs_Ret_inv in H as [-> [= -> ->]].
    exists tr0, (Raise e). rewrite app_nil_r. auto.
Qed.

Lemma runs_to_csv_inv (self : App) identifier out delim tr res :
  runs (to_csv row format_record row_keys csv_render self identifier out delim)
    tr res →
  ∃ pre tb,
    tr = pre ++ tb ∧ open_calls pre = []
    ∧ (∀ rq a, ¬ In (OApiGet rq a) pre)
    ∧ (runs (to_csv_body row format_record row_keys csv_render self
               identifier out delim) tb res
       ∨ tb = [] ∧ ∃ e, res = (self, Raise e)).
Proof.
  unfold to_csv. intros H.
  apply runs_PathExists_inv in H as ([|] & t1 & -> & H).
  - exists [OPathExists out true], t1. repeat split; auto.
    intros rq a [Hin | []]. discriminate.
  - apply runs_MakeDirs_inv in H as ([[] | e] & t2 & -> & H).
    + exists [OPathExists out false; OMakeDirs out (Ok ())], t2.
      repeat split; auto. intros rq a [Hin | [Hin | []]]; discriminate.
    + apply runs_Ret_inv in H as [-> ->].
      exists [OPathExists out false; OMakeDirs out (Raise e)], [].
      repeat split; eauto. intros rq a [Hin | [Hin | []]]; discriminate.
Qed.

Lemma to_csv_empty_batch (self : App) identifier out delim tr self' r rq :
  runs (to_csv row format_record row_keys csv_render self identifier out delim)
    tr (self', r) →
  In (OApiGet rq (Ok [])) tr →
  r = Raise (IndexError "list index out of range") ∧ open_calls tr = [].
Proof.
  intros H Hin.
  apply runs_to_csv_inv in H
    as (pre & tb & -> & Hpre & Hnoapi & [H | (-> & _)]).
  2: { rewrite app_nil_r in Hin. destruct (Hnoapi _ _ Hin). }
  apply in_app_or in Hin as [Hin | Hin]; [destruct (Hnoapi _ _ Hin) |].
  apply runs_to_csv_body_inv in H as (tr0 & r0 & Hrec & Hm).
  destruct (records_trace_answer _ _ _ _ _ _ _ _ Hrec) as [Hopen Hans].
  assert (In (OApiGet rq (Ok [])) tr0) as Hin0.
  { destruct r0 as [g | e].
    - destruct (format_all row format_record (records_raw g))
        as [[| first rest] | e]; try (destruct Hm as [-> _]; exact Hin).
      destruct Hm as (a & -> & _).
      apply in_app_or in Hin as [Hin | [Hin | []]]; [exact Hin | discriminate].
    - destruct Hm as [-> _]. exact Hin. }
  destruct (Hans _ _ Hin0) as (g & -> & Hg).
  unfold records_raw in Hm. rewrite Hg in Hm. simpl in Hm.
  destruct Hm as [-> ->]. rewrite open_calls_app, Hpre, Hopen. auto.
Qed.

Lemma to_csv_one_file (self : App) identifier out delim tr self' r :
  runs (to_csv row format_record row_keys csv_render self identifier out delim)
    tr (self', r) →
  (open_calls tr = []
   ∨ open_calls tr = [SStr (csv_filename identifier out)])
  ∧ (r = Ok tt →
     ∃ tr0 body,
       tr = tr0 ++ [OOpenWrite (SStr (csv_filename identifier out)) body
                      (Ok tt)]
       ∧ open_calls tr0 = []).
Proof.
  intros H.
  apply runs_to_csv_inv in H
    as (pre & tb & -> & Hpre & _ & [H | (-> & e & [= _ ->])]).
  2: { rewrite app_nil_r, Hpre. split; [auto | discriminate]. }
  apply runs_to_csv_body_inv in H as (tr0 & r0 & Hrec & Hm).
  destruct (records_trace_answer _ _ _ _ _ _ _ _ Hrec) as [Hopen _].
  destruct r0 as [g | e].
  - destruct (format_all row format_record (records_raw g))
      as [[| first rest] | e];
      try (destruct Hm as [-> ->]; rewrite open_calls_app, Hpre, Hopen;
           split; [auto | discriminate]).
    destruct Hm as (a & -> & ->).
    rewrite !open_calls_app, Hpre, Hopen. simpl. split; [auto |].
    intros Hok. destruct a as [[] | e]; [| discriminate].
    exists (pre ++ tr0), (csv_render delim (row_keys first) (first :: rest)).1.
    rewrite open_calls_app, Hpre, Hopen, <- app_assoc. auto.
  - destruct Hm as [-> ->]. rewrite open_calls_app, Hpre, Hopen.
    split; [auto | discriminate].
Qed.
End ToCsvFacts.

(** X17. [to_csv] on a container without records fails: whenever the
    transport answers the query with an empty batch, [to_csv] raises
    [IndexError('list index out of range')], from [csv_data[0]], and opens
    no file, although the output directory has been created. *)
Theorem to_csv_empty_raises_IndexError (row : Type)
    (format_record : raw_record -> result row)
    (row_keys : row -> list string)
    (csv_render : string -> list string -> list row -> string * option exn)
    (self : App) identifier out delim tr self' r rq :
  runs (to_csv row format_record row_keys csv_render self identifier out delim)
    tr (self', r) →
  In (OApiGet rq (Ok [])) tr →
  r = Raise (IndexError "list index out of range") ∧ open_calls tr = [].
Proof. apply to_csv_empty_batch. Qed.

Lemma to_csv_empty_raises_IndexError_example :
  let self := Sample.app ∅ in
  let rq := records_request self Sample.customers None None in
  let tr := [OPathExists "_csv" false; OMakeDirs "_csv" (Ok tt);
             OApiGet rq (Ok [])] in
  runs (to_csv raw_record Sample2.format_record Sample2.row_keys
          Sample2.csv_render self (Some "Customers") "_csv" ",") tr
    (set_data self (<[Some "object_1" := []]> (data self)),
     Raise (IndexError "list index out of range"))
  ∧ open_calls tr = [].
Proof.
  intros self rq tr.
  assert (runs (to_csv raw_record Sample2.format_record Sample2.row_keys
                  Sample2.csv_render self (Some "Customers") "_csv" ",") tr
            (set_data self (<[Some "object_1" := []]> (data self)),
             Raise (IndexError "list index out of range"))) as H.
  { unfold to_csv. apply (runs_PathExists _ _ false).
    apply (runs_MakeDirs _ _ (Ok tt)). unfold to_csv_body.
    rewrite (records_resolved self (Some "Customers") (Some "Customers")
               Sample.customers false None None)
      by (vm_compute; reflexivity).
    cbv zeta.
    change (py_or (obj Sample.customers) (view Sample.customers))
      with (Some "object_1").
    replace (data self !! Some "object_1") with (@None batch)
      by (vm_compute; reflexivity).
    apply (runs_ApiGet _ _ (Ok [])). apply runs_Ret. }
  split; [exact H |].
  exact (proj2 (to_csv_empty_raises_IndexError _ _ _ _ _ _ _ _ _ _ _ rq H
                  ltac:(right; right; left; reflexivity))).
Defined.

(** X18. [to_csv] opens at most one file, and only
    [os.path.join(out_dir, identifier + ".csv")], named after the
    identifier as the caller wrote it, not after the container's key. A
    call that returns has written that file as its last step, after all
    records were fetched and formatted. *)
Theorem to_csv_writes_one_file (row : Type)
    (format_record : raw_record -> result row)
    (row_keys : row -> list string)
    (csv_render : string -> list string -> list row -> string * option exn)
    (self : App) identifier out delim tr self' r :
  runs (to_csv row format_record row_keys csv_render self identifier out delim)
    tr (self', r) →
  (open_calls tr = []
   ∨ open_calls tr = [SStr (csv_filename identifier out)])
  ∧ (r = Ok tt →
     ∃ tr0 body,
       tr = tr0 ++ [OOpenWrite (SStr (csv_filename identifier out)) body
                      (Ok tt)]
       ∧ open_calls tr0 = []).
Proof. apply to_csv_one_file. Qed.

Lemma to_csv_writes_one_file_example :
  let self := Sample.app {[ Some "object_1" := [Sample.record_ab] ]} in
  let tr := [OPathExists "_csv" true;
             OOpenWrite (SStr "_csv/Customers.csv") "id" (Ok tt)] in
  runs (to_csv raw_record Sample2.format_record Sample2.row_keys
          Sample2.csv_render self (Some "Customers") "_csv" ",") tr
    (self, Ok tt)
  ∧ (open_calls tr = []
     ∨ open_calls tr = [SStr (csv_filename (Some "Customers") "_csv")]).
Proof.
  intros self tr.
  assert (runs (to_csv raw_record Sample2.format_record Sample2.row_keys
                  Sample2.csv_render self (Some "Customers") "_csv" ",") tr
            (self, Ok tt)) as H.
  { unfold to_csv. apply (runs_PathExists _ _ true). unfold to_csv_body.
    rewrite (records_resolved self (Some "Customers") (Some "Customers")
               Sample.customers false None None)
      by (vm_compute; reflexivity).
    cbv zeta.
    change (py_or (obj Sample.customers) (view Sample.customers))
      with (Some "object_1").
    replace (data self !! Some "object_1") with (Some [Sample.record_ab])
      by (vm_compute; reflexivity).
    cbn [bind records_raw records_data format_all Sample2.format_record
         Sample2.csv_render Sample2.row_keys fst snd].
    change (csv_filename (Some "Customers") "_csv") with "_csv/Customers.csv".
    apply (runs_OpenWrite _ _ _ (Ok tt)). apply runs_Ret. }
  split; [exact H |].
  exact (proj1 (to_csv_writes_one_file _ _ _ _ _ _ _ _ _ _ _ H)).
Defined.
